(** * Binairo generator (src/binairo.py): shallow embedding and properties

    The Python module has three classes: [Binairo] (the grid with its
    reversible single-cell removal), [BinairoGenerator] (constraint model,
    solution enumeration, removal loop) and [VarArraySolutions] (the
    solution callback handed to the CP-SAT solver).

    Conventions of the embedding:
    - Python integers are [Z]; indices produced by [range] are [nat].
    - [None] in a grid cell is [None : option Z].
    - A Python exception is a value [Raise e] of the result type [Res].
    - The [random] module is a generator state threaded through the calls.
    - The CP-SAT solver is an external capability: a function giving, for a
      model, the sequence of assignments its search discovers.
    - A grid is a list of rows, each row a list object of its own, as
      [_generate_random_grid] and [_solve] build them; a supplied grid that
      holds one row object several times is not represented. *)

From Stdlib Require Import ZArith List Lia Bool Permutation Ascii.
From stdpp Require Import base list strings pretty.

Local Open Scope Z_scope.

(** ** Python exceptions and the result monad *)

Inductive PyError : Type :=
| AssertionError
| TypeError
| IndexError
| KeyError.

Inductive Res (A : Type) : Type :=
| Ok (a : A)
| Raise (e : PyError).
Arguments Ok {A} a.
Arguments Raise {A} e.

Global Instance Res_ret : MRet Res := fun A a => Ok a.
Global Instance Res_bind : MBind Res := fun A B f m =>
  match m with
  | Ok a => f a
  | Raise e => Raise e
  end.

(** [for x in l: body], the body updating a state and possibly raising. *)
Fixpoint for_each {A S : Type} (l : list A) (body : A -> S -> Res S) (st : S)
  : Res S :=
  match l with
  | [] => Ok st
  | x :: l' => st' ← body x st; for_each l' body st'
  end.

(** [[f x for x in l]], evaluated left to right; the first exception wins. *)
Fixpoint list_comp {A B : Type} (f : A -> Res B) (l : list A) : Res (list B) :=
  match l with
  | [] => Ok []
  | x :: l' => y ← f x; ys ← list_comp f l'; Ok (y :: ys)
  end.

(** ** Python built-ins used by the module *)

(** [range(n)]: empty when [n <= 0]. *)
Definition range (n : Z) : list nat := seq 0 (Z.to_nat n).

(** [l[k]] for a non-negative index. *)
Definition py_index {A : Type} (l : list A) (k : nat) : Res A :=
  match l !! k with
  | Some x => Ok x
  | None => Raise IndexError
  end.

(** [l[k] = x] for a non-negative index. *)
Definition py_setitem {A : Type} (l : list A) (k : nat) (x : A) : Res (list A) :=
  if bool_decide (k < length l)%nat then Ok (<[k := x]> l) else Raise IndexError.

(** [l.pop(k)] for a non-negative index (the popped element is not used). *)
Definition py_pop {A : Type} (l : list A) (k : nat) : Res (list A) :=
  if bool_decide (k < length l)%nat then Ok (delete k l) else Raise IndexError.

(** [l[lo:hi]] for non-negative bounds. *)
Definition py_slice {A : Type} (l : list A) (lo hi : nat) : list A :=
  take (hi - lo)%nat (drop lo l).

(** [[x] * n]: empty when [n <= 0]. *)
Definition py_repeat {A : Type} (x : A) (n : Z) : list A :=
  replicate (Z.to_nat n) x.

(** ** Grids *)

Abbreviation Cell := (option Z).
Abbreviation Grid := (list (list (option Z))).
Abbreviation Square := (nat * nat)%type.

(** [grid[i][j]] *)
Definition grid_get (g : Grid) (i j : nat) : Res Cell :=
  row ← py_index g i; py_index row j.

(** [grid[i][j] = v]. A grid is a list of rows that are distinct list
    objects, as the list comprehension of [_generate_random_grid] builds
    them: writing a cell changes one row. A grid handed to the constructor
    whose rows are one and the same list object is outside this embedding
    (there the assignment changes every alias of the row), so statements
    on what a write leaves alone are made for generated grids only. *)
Definition grid_set (g : Grid) (i j : nat) (v : Cell) : Res Grid :=
  row ← py_index g i;
  row' ← py_setitem row j v;
  py_setitem g i row'.

(** ** class Binairo *)

Record Binairo : Type := mkBinairo {
  size : Z;
  grid : Grid;
  filled_squares : list Square;
  last_removed : option (nat * nat * Cell)
}.

Section BinairoClass.

(** The state of the [random] module and its transition: each call gives
    a raw draw and the next state. *)
Context {Rng : Type}.
Variable next_draw : Rng -> Z * Rng.

(** [random.randint(a, b)] for [a <= b]: a value of [a..b]. *)
Definition randint (a b : Z) (s : Rng) : Z * Rng :=
  let '(r, s') := next_draw s in (a + r mod (b - a + 1), s').

(** [[[random.randint(0, 1)] * self.size for _ in range(self.size)]]:
    one draw per row, the drawn value repeated along the row. *)
Fixpoint random_rows (width : Z) (rows : list nat) (s : Rng)
  : Grid * Rng :=
  match rows with
  | [] => ([], s)
  | _ :: rows' =>
      let '(v, s1) := randint 0 1 s in
      let '(g, s2) := random_rows width rows' s1 in
      (py_repeat (Some v) width :: g, s2)
  end.

Definition _generate_random_grid (size : Z) (s : Rng) : Grid * Rng :=
  random_rows size (range size) s.

(** [Binairo.__init__(size, initial_grid)] *)
Definition Binairo_init (size : Z) (initial_grid : option Grid) (s : Rng)
  : Res (Binairo * Rng) :=
  let '(g, s') :=
    match initial_grid with
    | None => _generate_random_grid size s
    | Some g0 => (g0, s)
    end in
  let filled :=
    flat_map (fun x => map (fun y => (x, y)) (range size)) (range size) in
  Ok (mkBinairo size g filled None, s').

(** [Binairo.remove_random_square()]; the index drawn by
    [randint(0, len - 1)] is never negative. *)
Definition remove_random_square (b : Binairo) (s : Rng)
  : Res (Binairo * Rng) :=
  if bool_decide (0 < length (filled_squares b))%nat then
    let '(r, s') := randint 0 (Z.of_nat (length (filled_squares b)) - 1) s in
    let square_idx := Z.to_nat r in
    '(i, j) ← py_index (filled_squares b) square_idx;
    value ← grid_get (grid b) i j;
    g' ← grid_set (grid b) i j None;
    filled' ← py_pop (filled_squares b) square_idx;
    Ok (mkBinairo (size b) g' filled' (Some (i, j, value)), s')
  else Raise AssertionError.

(** [Binairo.cancel_last_remove()]: unpacking [None] raises [TypeError];
    [last_removed] is left as it is. *)
Definition cancel_last_remove (b : Binairo) : Res Binairo :=
  match last_removed b with
  | None => Raise TypeError
  | Some (i, j, value) =>
      g' ← grid_set (grid b) i j value;
      Ok (mkBinairo (size b) g' (filled_squares b ++ [(i, j)])
            (last_removed b))
  end.

End BinairoClass.

(** Python strings are lists of characters; [str(v)] of an integer is its
    decimal writing. *)
Definition py_str (v : Z) : list ascii :=
  String.list_ascii_of_string (pretty v).

(** The text of a cell in [__str__]: [str(value) if value is not None
    else " "]. *)
Definition cell_text (value : option Z) : list ascii :=
  match value with
  | Some v => py_str v
  | None => [" "%char]
  end.

(** [Binairo.__str__()]; ["010"%char] is the line feed. *)
Definition Binairo_str (b : Binairo) : Res (list ascii) :=
  let string := [] in
  let newline :=
    ["010"%char] ++ py_repeat "_"%char (size b * 2 + 1) ++ ["010"%char] in
  let string := string ++ newline in
  for_each (range (size b)) (fun i string =>
    let string := string ++ ["|"%char] in
    string ← for_each (range (size b)) (fun j string =>
      value ← grid_get (grid b) i j;
      let string := string ++ cell_text value in
      Ok (string ++ ["|"%char])) string;
    Ok (string ++ newline)) string.

(** A scripted generator: the draws are read off a list (0 once it is
    exhausted). *)
Definition scripted (s : list Z) : Z * list Z :=
  match s with
  | [] => (0, [])
  | r :: s' => (r, s')
  end.

(** ** The CP-SAT model (ortools.sat.python.cp_model) *)

(** Linear expressions over the model's variables; a variable is known by
    its index in the model. *)
Inductive LinearExpr : Type :=
| LConst (z : Z)
| LVar (v : nat)
| LAdd (a b : LinearExpr).

(** [e == k], [e > k], [e < k] *)
Inductive BoundedLinearExpression : Type :=
| ExprEq (e : LinearExpr) (k : Z)
| ExprGt (e : LinearExpr) (k : Z)
| ExprLt (e : LinearExpr) (k : Z).

Global Instance LinearExpr_eq_dec : EqDecision LinearExpr.
Proof. solve_decision. Defined.
Global Instance BoundedLinearExpression_eq_dec :
  EqDecision BoundedLinearExpression.
Proof. solve_decision. Defined.

(** A model: the domains [(lb, ub)] of its variables, in creation order,
    and its constraints, in the order they were added. *)
Record CpModel : Type := mkCpModel {
  variables : list (Z * Z);
  constraints : list BoundedLinearExpression
}.

(** [cp_model.CpModel()] *)
Definition CpModel_new : CpModel := mkCpModel [] [].

(** [model.NewIntVar(lb, ub, name)]: the new variable and the model. *)
Definition NewIntVar (lb ub : Z) (m : CpModel) : nat * CpModel :=
  (length (variables m), mkCpModel (variables m ++ [(lb, ub)]) (constraints m)).

(** [model.Add(c)] *)
Definition Add (c : BoundedLinearExpression) (m : CpModel) : CpModel :=
  mkCpModel (variables m) (constraints m ++ [c]).

(** [sum(l)] on expressions: [((0 + l0) + l1) + ...] *)
Definition py_sum (l : list LinearExpr) : LinearExpr :=
  foldl LAdd (LConst 0) l.

(** The value of an expression and the truth of a constraint under an
    assignment (the list of the variables' values, by index). *)
Definition Value (a : list Z) (v : nat) : Z := nth v a 0.

Fixpoint eval (a : list Z) (e : LinearExpr) : Z :=
  match e with
  | LConst z => z
  | LVar v => Value a v
  | LAdd x y => eval a x + eval a y
  end.

Definition holds (a : list Z) (c : BoundedLinearExpression) : bool :=
  match c with
  | ExprEq e k => eval a e =? k
  | ExprGt e k => k <? eval a e
  | ExprLt e k => eval a e <? k
  end.

Fixpoint in_domains (a : list Z) (doms : list (Z * Z)) : bool :=
  match a, doms with
  | [], [] => true
  | x :: a', (lb, ub) :: doms' => (lb <=? x) && (x <=? ub) && in_domains a' doms'
  | _, _ => false
  end.

Definition feasible (m : CpModel) (a : list Z) : bool :=
  in_domains a (variables m) && forallb (holds a) (constraints m).

(** ** Python dict keyed by squares, in insertion order *)

Abbreviation VarGrid := (list (nat * nat * nat)).

(** [d[k] = v] *)
Fixpoint dict_set (d : VarGrid) (k : Square) (v : nat) : VarGrid :=
  match d with
  | [] => [(k, v)]
  | (k', v') :: d' =>
      if decide (k' = k) then (k, v) :: d' else (k', v') :: dict_set d' k v
  end.

(** [d[k]] *)
Fixpoint dict_get (d : VarGrid) (k : Square) : Res nat :=
  match d with
  | [] => Raise KeyError
  | (k', v') :: d' => if decide (k' = k) then Ok v' else dict_get d' k
  end.

(** [d.values()] *)
Definition dict_values (d : VarGrid) : list nat := map snd d.

(** ** class VarArraySolutions *)

Record VarArraySolutions : Type := mkVarArraySolutions {
  _variables : list nat;
  max_solutions_until_stop : Z;
  _solution_count : Z;
  _solutions : list (list Z)
}.

(** [VarArraySolutions.__init__(variables, max_solutions_until_stop)] *)
Definition VarArraySolutions_init (variables : VarGrid) (max_solutions : Z)
  : VarArraySolutions :=
  mkVarArraySolutions (dict_values variables) max_solutions 0 [].

(** [on_solution_callback()], called by the solver on the assignment [a] it
    has just found; the boolean tells whether [StopSearch] was called. *)
Definition on_solution_callback (a : list Z) (cb : VarArraySolutions)
  : VarArraySolutions * bool :=
  let count := _solution_count cb + 1 in
  let solution := map (Value a) (_variables cb) in
  (mkVarArraySolutions (_variables cb) (max_solutions_until_stop cb) count
     (_solutions cb ++ [solution]),
   bool_decide (count >= 2)).

Definition solutions (cb : VarArraySolutions) : list (list Z) := _solutions cb.

(** The solver's statuses. *)
Inductive CpSolverStatus : Type :=
| UNKNOWN
| MODEL_INVALID
| FEASIBLE
| INFEASIBLE
| OPTIMAL.

Abbreviation Board := (list (list Z)).

(** [zip] applied to the unpacked rows of the board: the columns, as many
    as the shortest row has cells. *)
Definition zip_star (board : Board) : list (list Z) :=
  match board with
  | [] => []
  | row :: rows =>
      map (fun k => map (fun r => nth k r 0) board)
        (seq 0 (foldl Nat.min (length row) (map length rows)))
  end.

(** [len(set(l))] *)
Definition len_set {A : Type} `{EqDecision A} (l : list A) : nat :=
  length (remove_dups l).

(** [BinairoGenerator._is_valid_c3(board)] *)
Definition _is_valid_c3 (board : Board) : bool :=
  bool_decide (len_set board = length board) &&
  bool_decide (len_set (zip_star board) = length board).

(** ** class BinairoGenerator: the constraint model *)

(** [_build_var_grid()]: the dict of variables and the model holding them. *)
Definition _build_var_grid (board_size : Z) (model : CpModel)
  : Res (VarGrid * CpModel) :=
  for_each (range board_size) (fun i =>
    for_each (range board_size) (fun j '(var_grid, model) =>
      let '(v, model) := NewIntVar 0 1 model in
      Ok (dict_set var_grid (i, j) v, model)))
    ([], model).

(** [_add_initial_values()] *)
Definition _add_initial_values (board_size : Z) (binairo : Binairo)
    (var_grid : VarGrid) (model : CpModel) : Res CpModel :=
  for_each (range board_size) (fun i =>
    for_each (range board_size) (fun j model =>
      cell ← grid_get (grid binairo) i j;
      match cell with
      | Some value =>
          v ← dict_get var_grid (i, j);
          Ok (Add (ExprEq (LVar v) value) model)
      | None => Ok model
      end))
    model.

(** [[self.var_grid[key jl] for jl in range(self.board_size)[j:j + 3]]] *)
Definition window (board_size : Z) (var_grid : VarGrid)
    (key : nat -> Square) (j : nat) : Res (list LinearExpr) :=
  list_comp (fun jl => v ← dict_get var_grid (key jl); Ok (LVar v))
    (py_slice (range board_size) j (j + 3)).

(** [_add_constraint_c1()] *)
Definition _add_constraint_c1 (board_size : Z) (var_grid : VarGrid)
    (model : CpModel) : Res CpModel :=
  for_each (range board_size) (fun i =>
    for_each (range (board_size - 2)) (fun j model =>
      row ← window board_size var_grid (fun jl => (i, jl)) j;
      let sum_three_consecutives_row := py_sum row in
      let model := Add (ExprGt sum_three_consecutives_row 0) model in
      let model := Add (ExprLt sum_three_consecutives_row 3) model in
      col ← window board_size var_grid (fun jl => (jl, i)) j;
      let sum_three_consecutives_col := py_sum col in
      let model := Add (ExprGt sum_three_consecutives_col 0) model in
      let model := Add (ExprLt sum_three_consecutives_col 3) model in
      Ok model))
    model.

(** [_add_constraint_c2()]; [//] is the floor division. *)
Definition _add_constraint_c2 (board_size : Z) (var_grid : VarGrid)
    (model : CpModel) : Res CpModel :=
  let line_sum := board_size / 2 in
  model ← for_each (range board_size) (fun i model =>
    row ← list_comp (fun j => v ← dict_get var_grid (i, j); Ok (LVar v))
            (range board_size);
    Ok (Add (ExprEq (py_sum row) line_sum) model)) model;
  for_each (range board_size) (fun j model =>
    col ← list_comp (fun i => v ← dict_get var_grid (i, j); Ok (LVar v))
            (range board_size);
    Ok (Add (ExprEq (py_sum col) line_sum) model)) model.

(** The first half of [_get_valid_solutions()]: a fresh model, its
    variables, and the three groups of constraints. *)
Definition build_model (board_size : Z) (binairo : Binairo)
  : Res (VarGrid * CpModel) :=
  let model := CpModel_new in
  '(var_grid, model) ← _build_var_grid board_size model;
  model ← _add_initial_values board_size binairo var_grid model;
  model ← _add_constraint_c1 board_size var_grid model;
  model ← _add_constraint_c2 board_size var_grid model;
  Ok (var_grid, model).

Section Generator.

Context {Rng : Type}.
Variable next_draw : Rng -> Z * Rng.

(** The solver capability: the assignments that the search on a model
    discovers, in discovery order, when it is never stopped. *)
Variable search : CpModel -> list (list Z).

(** The solver calls the callback on each assignment it discovers, until
    the callback stops the search. *)
Fixpoint drive (found : list (list Z)) (cb : VarArraySolutions)
  : VarArraySolutions * bool :=
  match found with
  | [] => (cb, false)
  | a :: found' =>
      let '(cb', stop) := on_solution_callback a cb in
      if stop then (cb', true) else drive found' cb'
  end.

(** [solver.SearchForAllSolutions(model, callback)] *)
Definition SearchForAllSolutions (model : CpModel) (cb : VarArraySolutions)
  : CpSolverStatus * VarArraySolutions :=
  let '(cb', stopped) := drive (search model) cb in
  let status :=
    match search model with
    | [] => INFEASIBLE
    | _ => if stopped then FEASIBLE else OPTIMAL
    end in
  (status, cb').

(** [_solve()] *)
Definition _solve (board_size : Z) (var_grid : VarGrid) (model : CpModel)
  : Res (list Board) :=
  let solution_printer := VarArraySolutions_init var_grid 2 in
  let '(result, solution_printer) :=
    SearchForAllSolutions model solution_printer in
  let raw_solutions := solutions solution_printer in
  match result with
  | FEASIBLE | OPTIMAL =>
      list_comp (fun s =>
        list_comp (fun j =>
          list_comp (fun i =>
            raw ← py_index raw_solutions s; py_index raw (i + j)%nat)
            (range board_size))
          (range board_size))
        (range (Z.of_nat (length raw_solutions)))
  | _ => Ok []
  end.

(** [_get_valid_solutions()] *)
Definition _get_valid_solutions (board_size : Z) (binairo : Binairo)
  : Res (list Board) :=
  '(var_grid, model) ← build_model board_size binairo;
  solutions_without_c3 ← _solve board_size var_grid model;
  Ok (List.filter _is_valid_c3 solutions_without_c3).

(** The [while len(solutions) == 0] loop of [generate_binairo()], run for
    at most [fuel] iterations; [None] when it is still running then. *)
Fixpoint removal_loop (fuel : nat) (board_size : Z) (binairo : Binairo)
    (solutions : list Board) (s : Rng)
  : option (Res (Binairo * list Board * Rng)) :=
  if bool_decide (length solutions = 0%nat) then
    match fuel with
    | O => None
    | S fuel' =>
        let last_solutions := solutions in
        match remove_random_square next_draw binairo s with
        | Raise e => Some (Raise e)
        | Ok (binairo, s) =>
            match _get_valid_solutions board_size binairo with
            | Raise e => Some (Raise e)
            | Ok solutions =>
                if bool_decide (1 < length solutions)%nat then
                  match cancel_last_remove binairo with
                  | Raise e => Some (Raise e)
                  | Ok binairo =>
                      removal_loop fuel' board_size binairo last_solutions s
                  end
                else removal_loop fuel' board_size binairo solutions s
            end
        end
    end
  else Some (Ok (binairo, solutions, s)).

(** [generate_binairo()] up to the end of the loop: the grid and the
    solution list the return expression reads. *)
Definition generate_loop (fuel : nat) (board_size : Z) (s : Rng)
  : option (Res (Binairo * list Board * Rng)) :=
  match Binairo_init next_draw board_size None s with
  | Raise e => Some (Raise e)
  | Ok (binairo, s) =>
      match _get_valid_solutions board_size binairo with
      | Raise e => Some (Raise e)
      | Ok solutions => removal_loop fuel board_size binairo solutions s
      end
  end.

(** [generate_binairo()]: [return self.binairo, solutions[0]]. *)
Definition generate_binairo (fuel : nat) (board_size : Z) (s : Rng)
  : option (Res (Binairo * Board)) :=
  match generate_loop fuel board_size s with
  | None => None
  | Some (Raise e) => Some (Raise e)
  | Some (Ok (binairo, solutions, _)) =>
      Some (solution ← py_index solutions 0; Ok (binairo, solution))
  end.

End Generator.

(** ** The script at the end of the module *)

(** [print(x)]: the text of [x] and a line feed, added to what was printed. *)
Definition py_print (text : list ascii) (stdout : list ascii) : list ascii :=
  stdout ++ text ++ ["010"%char].

Section Main.

Context {Rng : Type}.
Variable next_draw : Rng -> Z * Rng.
Variable search : CpModel -> list (list Z).

(** The [if __name__ == "__main__"] block, as the text it prints. The
    solution, a board of integers, is handed to [Binairo] as an initial
    grid: a grid with a value in every cell. *)
Definition main (fuel : nat) (s : Rng) : option (Res (list ascii)) :=
  match generate_binairo next_draw search fuel 6 s with
  | None => None
  | Some (Raise e) => Some (Raise e)
  | Some (Ok (binairo, solution)) =>
      Some (
        let stdout :=
          py_print (String.list_ascii_of_string "Generated binairo:") [] in
        text ← Binairo_str binairo;
        let stdout := py_print text stdout in
        '(solution, _) ←
          Binairo_init next_draw 6 (Some (map (map Some) solution)) s;
        let stdout :=
          py_print (String.list_ascii_of_string "Solution:") stdout in
        text ← Binairo_str solution;
        Ok (py_print text stdout))
  end.

End Main.

(** ** A reference solver: exhaustive search in lexicographic order *)

Fixpoint all_assignments (doms : list (Z * Z)) : list (list Z) :=
  match doms with
  | [] => [[]]
  | (lb, ub) :: doms' =>
      flat_map (fun x => map (cons x) (all_assignments doms'))
        (seqZ lb (ub - lb + 1))
  end.

Definition brute_search (m : CpModel) : list (list Z) :=
  List.filter (feasible m) (all_assignments (variables m)).

(** ** A solver that knows one assignment: it discovers [a] on the models
    for which [a] is feasible, and nothing on the others. *)
Definition pick_solver (a : list Z) (m : CpModel) : list (list Z) :=
  if feasible m a then [a] else [].


(** ** Vocabulary of the properties *)

(** The squares [(x, y)] with [x] and [y] in [range(size)], row by row. *)
Definition all_squares (size : Z) : list Square :=
  flat_map (fun x => map (fun y => (x, y)) (range size)) (range size).

(** [filled_squares] lists, without repetition, exactly the squares whose
    cell holds a value. *)
Definition filled_exact (b : Binairo) : Prop :=
  NoDup (filled_squares b) /\
  forall i j, (i, j) ∈ filled_squares b <->
              exists v, grid_get (grid b) i j = Ok (Some v).

(** A [size] by [size] grid with a value in every cell. *)
Definition dense_square (size : Z) (g : Grid) : Prop :=
  length g = Z.to_nat size /\
  Forall (fun row => length row = Z.to_nat size /\
                     Forall (fun c => exists v, c = Some v) row) g.

(** Every listed square is a cell of the grid. *)
Definition squares_in_grid (b : Binairo) : Prop :=
  Forall (fun sq => exists c, grid_get (grid b) sq.1 sq.2 = Ok c)
    (filled_squares b).

Section Tracked.

Context {Rng : Type}.
Variable next_draw : Rng -> Z * Rng.

(** The grids that [generate_binairo] can hold: built without an initial
    grid, then changed by removals, each undo directly following the
    removal it cancels. *)
Inductive tracked : Binairo -> Prop :=
| tracked_random size s b s' :
    Binairo_init next_draw size None s = Ok (b, s') -> tracked b
| tracked_remove b s b1 s1 :
    tracked b ->
    remove_random_square next_draw b s = Ok (b1, s1) -> tracked b1
| tracked_undo b s b1 s1 b2 :
    tracked b ->
    remove_random_square next_draw b s = Ok (b1, s1) ->
    cancel_last_remove b1 = Ok b2 -> tracked b2.

End Tracked.

(** A [size] by [size] grid, cells empty or not. *)
Definition square_grid (size : Z) (g : Grid) : Prop :=
  length g = Z.to_nat size /\
  Forall (fun row => length row = Z.to_nat size) g.

(** The variable of the cell [(i, j)]: variables are created row by row. *)
Definition cell_var (board_size : Z) (i j : nat) : nat :=
  (i * Z.to_nat board_size + j)%nat.

(** The dict that [_build_var_grid] builds. *)
Definition var_grid_of (board_size : Z) : VarGrid :=
  flat_map (fun i => map (fun j => ((i, j), cell_var board_size i j))
                       (range board_size)) (range board_size).

(** The model with some more constraints added, in order. *)
Definition add_all (m : CpModel) (cs : list BoundedLinearExpression) : CpModel :=
  mkCpModel (variables m) (constraints m ++ cs).

(** The three variables of the window starting at column [j] of row [i],
    and at row [j] of column [i]. *)
Definition row_window (board_size : Z) (i j : nat) : list LinearExpr :=
  [LVar (cell_var board_size i j); LVar (cell_var board_size i (j + 1));
   LVar (cell_var board_size i (j + 2))].

Definition col_window (board_size : Z) (i j : nat) : list LinearExpr :=
  [LVar (cell_var board_size j i); LVar (cell_var board_size (j + 1) i);
   LVar (cell_var board_size (j + 2) i)].

(** The variables of row [i] and of column [j]. *)
Definition row_vars (board_size : Z) (i : nat) : list LinearExpr :=
  map (fun j => LVar (cell_var board_size i j)) (range board_size).

Definition col_vars (board_size : Z) (j : nat) : list LinearExpr :=
  map (fun i => LVar (cell_var board_size i j)) (range board_size).

(** The constraints each group contributes at one position. *)
Definition fixed_at (board_size : Z) (g : Grid) (i j : nat)
  : list BoundedLinearExpression :=
  match g !! i ≫= (.!! j) with
  | Some (Some value) => [ExprEq (LVar (cell_var board_size i j)) value]
  | _ => []
  end.

Definition c1_at (board_size : Z) (i j : nat) : list BoundedLinearExpression :=
  [ExprGt (py_sum (row_window board_size i j)) 0;
   ExprLt (py_sum (row_window board_size i j)) 3;
   ExprGt (py_sum (col_window board_size i j)) 0;
   ExprLt (py_sum (col_window board_size i j)) 3].

(** The constraints of the model of a grid, group by group, in the order
    [_add_initial_values], [_add_constraint_c1], [_add_constraint_c2] add
    them. *)
Definition constraints_of (board_size : Z) (g : Grid)
  : list BoundedLinearExpression :=
  flat_map (fun i => flat_map (fixed_at board_size g i) (range board_size))
    (range board_size) ++
  flat_map (fun i => flat_map (c1_at board_size i) (range (board_size - 2)))
    (range board_size) ++
  flat_map (fun i => [ExprEq (py_sum (row_vars board_size i)) (board_size / 2)])
    (range board_size) ++
  flat_map (fun j => [ExprEq (py_sum (col_vars board_size j)) (board_size / 2)])
    (range board_size).

(** The model of a grid. *)
Definition model_of (board_size : Z) (g : Grid) : CpModel :=
  mkCpModel
    (replicate (Z.to_nat board_size * Z.to_nat board_size)%nat (0, 1))
    (constraints_of board_size g).

(** What the callback stores for an assignment, and the board that
    [_solve] makes of a stored list: the cell [i] of row [j] is the element
    [i + j] of the list. *)
Definition raw_solution (var_grid : VarGrid) (a : list Z) : list Z :=
  map (Value a) (dict_values var_grid).

Definition clean_solution (board_size : Z) (raw : list Z) : list (list Z) :=
  map (fun j => map (fun i => nth (i + j) raw 0) (range board_size))
    (range board_size).

(** A [size] by [size] board. *)
Definition square_board (size : Z) (board : list (list Z)) : Prop :=
  length board = Z.to_nat size /\
  Forall (fun row => length row = Z.to_nat size) board.

(** What is assumed of the solver: the assignments it discovers on a model
    are feasible for it, and it discovers none twice. *)
Definition sound_solver (search : CpModel -> list (list Z)) : Prop :=
  forall m, NoDup (search m) /\ forall a, a ∈ search m -> feasible m a = true.

(** The sum of a row or of a column. *)
Definition line_total (l : list Z) : Z := foldr Z.add 0 l.

(** Rule C2 on a board: every row and every column sums to [size // 2]. *)
Definition balanced (size : Z) (board : list (list Z)) : bool :=
  forallb (fun row => line_total row =? size / 2) board &&
  forallb (fun col => line_total col =? size / 2) (zip_star board).

(** The board carries the value of every non-empty cell of the grid. *)
Definition agrees (g : Grid) (board : list (list Z)) : bool :=
  forallb (fun '(grow, brow) =>
             forallb (fun '(c, v) =>
                        match c with
                        | Some x => x =? v
                        | None => true
                        end) (zip grow brow))
    (zip g board).

(** The value an assignment gives to the cell [(i, j)]. *)
Definition cell_value (board_size : Z) (a : list Z) (i j : nat) : Z :=
  Value a (cell_var board_size i j).

(** The board an assignment stands for: row [i], column [j] holds the
    value of the variable of the cell [(i, j)]. *)
Definition board_of (board_size : Z) (a : list Z) : list (list Z) :=
  map (fun i => map (cell_value board_size a i) (range board_size))
    (range board_size).

(** The rules the model encodes, read on the cells: an assignment of 0..1
    values to the [size * size] cells that carries the values of the grid,
    has no window of three equal cells in a row or a column, and sums to
    [size // 2] on every row and every column. *)
Definition solves (board_size : Z) (g : Grid) (a : list Z) : Prop :=
  length a = (Z.to_nat board_size * Z.to_nat board_size)%nat /\
  Forall (fun x => 0 <= x <= 1) a /\
  (forall i j value,
      (i < Z.to_nat board_size)%nat -> (j < Z.to_nat board_size)%nat ->
      grid_get g i j = Ok (Some value) ->
      cell_value board_size a i j = value) /\
  (forall i j,
      (i < Z.to_nat board_size)%nat -> (j + 2 < Z.to_nat board_size)%nat ->
      0 < cell_value board_size a i j + cell_value board_size a i (j + 1) +
          cell_value board_size a i (j + 2) < 3) /\
  (forall i j,
      (i < Z.to_nat board_size)%nat -> (j + 2 < Z.to_nat board_size)%nat ->
      0 < cell_value board_size a j i + cell_value board_size a (j + 1) i +
          cell_value board_size a (j + 2) i < 3) /\
  (forall i, (i < Z.to_nat board_size)%nat ->
             line_total (map (cell_value board_size a i) (range board_size)) =
               board_size / 2) /\
  (forall j, (j < Z.to_nat board_size)%nat ->
             line_total (map (fun i => cell_value board_size a i j)
                           (range board_size)) = board_size / 2).

(** The grid [g] is the grid [g0] with some cells emptied. *)
Definition blanked (g0 g : Grid) : Prop :=
  Forall2 (Forall2 (fun c0 c => c = None \/ c = c0)) g0 g.

(** The solver misses no feasible assignment. *)
Definition complete_solver (search : CpModel -> list (list Z)) : Prop :=
  forall m a, feasible m a = true -> a ∈ search m.

(** What the removal loop keeps true of its grid: it has the size of the
    generator, it is the start grid [g0] with some cells emptied, and its
    [filled_squares] is exact. *)
Definition loop_invariant (board_size : Z) (g0 : Grid) (b : Binairo) : Prop :=
  size b = board_size /\ blanked g0 (grid b) /\ filled_exact b.

(** The text that [__str__] builds, piece by piece: the separator line,
    the line of row [i], and the whole. *)
Definition grid_cell (g : Grid) (i j : nat) : option Z :=
  match g !! i ≫= (.!! j) with
  | Some c => c
  | None => None
  end.

Definition newline_text (size : Z) : list ascii :=
  ["010"%char] ++ py_repeat "_"%char (size * 2 + 1) ++ ["010"%char].

Definition row_text (b : Binairo) (i : nat) : list ascii :=
  ["|"%char] ++
  concat (map (fun j => cell_text (grid_cell (grid b) i j) ++ ["|"%char])
            (range (size b))) ++
  newline_text (size b).

Definition render_text (b : Binairo) : list ascii :=
  newline_text (size b) ++ concat (map (row_text b) (range (size b))).

(** * Properties *)

(** ** The result monad and the loops *)

Lemma bind_Ok {A B : Type} (m : Res A) (f : A -> Res B) (y : B) :
  m ≫= f = Ok y <-> exists x, m = Ok x /\ f x = Ok y.
Proof.
  destruct m as [a|e]; simpl.
  - split; [eauto | intros (x & [= ->] & H); exact H].
  - split; [discriminate | intros (x & [=] & _)].
Qed.

Lemma py_index_Ok {A : Type} (l : list A) (k : nat) (x : A) :
  py_index l k = Ok x <-> l !! k = Some x.
Proof.
  unfold py_index. destruct (l !! k); split; congruence.
Qed.

Lemma py_index_lt {A : Type} (l : list A) (k : nat) :
  (k < length l)%nat -> exists x, py_index l k = Ok x /\ l !! k = Some x.
Proof.
  intros Hk. destruct (lookup_lt_is_Some_2 l k Hk) as [x Hx].
  exists x. split; [by apply py_index_Ok | done].
Qed.

Lemma py_setitem_Ok {A : Type} (l : list A) (k : nat) (x : A) :
  (k < length l)%nat -> py_setitem l k x = Ok (<[k := x]> l).
Proof.
  intros Hk. unfold py_setitem. by rewrite bool_decide_eq_true_2.
Qed.

Lemma py_pop_Ok {A : Type} (l : list A) (k : nat) :
  (k < length l)%nat -> py_pop l k = Ok (delete k l).
Proof.
  intros Hk. unfold py_pop. by rewrite bool_decide_eq_true_2.
Qed.

(** ** Grid cells *)

Lemma grid_get_Ok (g : Grid) (i j : nat) (c : Cell) :
  grid_get g i j = Ok c <->
  exists row, g !! i = Some row /\ row !! j = Some c.
Proof.
  unfold grid_get. rewrite bind_Ok. split.
  - intros (row & Hr & Hc). exists row.
    by rewrite <- !py_index_Ok.
  - intros (row & Hr & Hc). exists row.
    by rewrite !py_index_Ok.
Qed.

Lemma grid_set_Ok (g : Grid) (i j : nat) (row : list Cell) (v : Cell) :
  g !! i = Some row -> (j < length row)%nat ->
  grid_set g i j v = Ok (<[i := <[j := v]> row]> g).
Proof.
  intros Hr Hj. unfold grid_set.
  apply py_index_Ok in Hr as Hr'. rewrite Hr'. simpl.
  rewrite (py_setitem_Ok row j v Hj). simpl.
  apply py_setitem_Ok, lookup_lt_is_Some_1. by eexists.
Qed.

Lemma grid_set_undo (g : Grid) (i j : nat) (row : list Cell) (c v : Cell) :
  g !! i = Some row -> row !! j = Some c ->
  grid_set (<[i := <[j := v]> row]> g) i j c = Ok g.
Proof.
  intros Hr Hc.
  assert (i < length g)%nat as Hi by (apply lookup_lt_is_Some_1; eauto).
  assert (j < length row)%nat as Hj by (apply lookup_lt_is_Some_1; eauto).
  rewrite (grid_set_Ok (<[i := <[j := v]> row]> g) i j (<[j := v]> row) c).
  - f_equal. rewrite (list_insert_insert_eq g), (list_insert_insert_eq row).
    rewrite (list_insert_id row j c Hc). by apply list_insert_id.
  - by apply list_lookup_insert_eq.
  - by rewrite length_insert.
Qed.

(** ** Random draws *)

Section BinairoFacts.

Context {Rng : Type}.
Variable next_draw : Rng -> Z * Rng.

Lemma randint_range (a b : Z) (s : Rng) :
  a <= b -> a <= (randint next_draw a b s).1 <= b.
Proof.
  intros Hab. unfold randint. destruct (next_draw s) as [r s']. simpl.
  pose proof (Z.mod_pos_bound r (b - a + 1)). lia.
Qed.

Lemma random_rows_constant (width : Z) (rows : list nat) (s : Rng) :
  Forall (fun row => exists v, (v = 0 \/ v = 1) /\
                               row = py_repeat (Some v) width)
    (random_rows next_draw width rows s).1.
Proof.
  revert s. induction rows as [|k rows IH]; intros s; simpl.
  - constructor.
  - pose proof (randint_range 0 1 s ltac:(lia)) as Hv.
    destruct (randint next_draw 0 1 s) as [v s1]. simpl in Hv.
    specialize (IH s1).
    destruct (random_rows next_draw width rows s1) as [g s2]. simpl in *.
    constructor; [|exact IH].
    exists v. split; [lia | reflexivity].
Qed.

Lemma random_rows_length (width : Z) (rows : list nat) (s : Rng) :
  length (random_rows next_draw width rows s).1 = length rows.
Proof.
  revert s. induction rows as [|k rows IH]; intros s; simpl; [done|].
  destruct (randint next_draw 0 1 s) as [v s1]. specialize (IH s1).
  destruct (random_rows next_draw width rows s1) as [g s2]. simpl in *.
  by rewrite IH.
Qed.

End BinairoFacts.

(** ** Reading a grid after one cell was written *)

Lemma grid_get_set_same (g : Grid) (i j : nat) (row : list Cell) (v : Cell) :
  g !! i = Some row -> (j < length row)%nat ->
  grid_get (<[i := <[j := v]> row]> g) i j = Ok v.
Proof.
  intros Hr Hj. apply grid_get_Ok. exists (<[j := v]> row). split.
  - apply list_lookup_insert_eq, lookup_lt_is_Some_1. by eexists.
  - by apply list_lookup_insert_eq.
Qed.

Lemma grid_get_set_other (g : Grid) (i j i' j' : nat) (row : list Cell)
    (v : Cell) :
  g !! i = Some row -> (i', j') ≠ (i, j) ->
  grid_get (<[i := <[j := v]> row]> g) i' j' = grid_get g i' j'.
Proof.
  intros Hr Hne. unfold grid_get, py_index.
  destruct (decide (i' = i)) as [->|Hi].
  - rewrite list_lookup_insert_eq
      by (apply lookup_lt_is_Some_1; by eexists).
    rewrite Hr. simpl.
    rewrite list_lookup_insert_ne; [done | congruence].
  - by rewrite list_lookup_insert_ne.
Qed.

(** ** Squares *)

Lemma elem_of_all_squares (size : Z) (i j : nat) :
  (i, j) ∈ all_squares size <->
  (i < Z.to_nat size)%nat /\ (j < Z.to_nat size)%nat.
Proof.
  unfold all_squares, range. rewrite list_elem_of_In, in_flat_map. split.
  - intros (x & Hx & Hin). apply in_map_iff in Hin as (y & [= <- <-] & Hy).
    apply in_seq in Hx. apply in_seq in Hy. lia.
  - intros [Hi Hj]. exists i. split; [apply in_seq; lia|].
    apply in_map_iff. exists j. split; [done | apply in_seq; lia].
Qed.

Lemma NoDup_all_squares (size : Z) : NoDup (all_squares size).
Proof.
  unfold all_squares, range. apply NoDup_ListNoDup.
  generalize (Z.to_nat size) at 2. intros n.
  generalize 0%nat at 2. intros a.
  assert (List.NoDup (seq a n)) as Hnd by apply List.seq_NoDup.
  assert (forall x, In x (seq a n) -> (a <= x)%nat) as Hge
    by (intros x Hx%in_seq; lia).
  revert Hnd Hge. generalize (seq a n) as l.
  induction l as [|x l IH]; intros Hnd Hge; simpl; [constructor|].
  inversion Hnd as [|? ? Hx Hl]; subst.
  apply NoDup_ListNoDup, NoDup_app. split_and!.
  - apply NoDup_ListNoDup, Finite.Injective_map_NoDup.
    + intros y1 y2 [=]. done.
    + apply List.seq_NoDup.
  - intros [x' y'] Hin1 Hin2.
    apply list_elem_of_In, in_map_iff in Hin1 as (y & [= <- <-] & _).
    apply list_elem_of_In, in_flat_map in Hin2 as (x2 & Hx2 & Hin2).
    apply in_map_iff in Hin2 as (y2 & [= -> _] & _). done.
  - apply NoDup_ListNoDup, IH; [done|].
    intros z Hz. apply Hge. by right.
Qed.

(** ** Removal and undo *)

Section RemovalFacts.

Context {Rng : Type}.
Variable next_draw : Rng -> Z * Rng.

(** What a successful removal did. *)
Lemma remove_random_square_inv (b b1 : Binairo) (s s1 : Rng) :
  remove_random_square next_draw b s = Ok (b1, s1) ->
  exists k i j row c,
    filled_squares b !! k = Some (i, j) /\
    grid b !! i = Some row /\ row !! j = Some c /\
    b1 = mkBinairo (size b) (<[i := <[j := None]> row]> (grid b))
           (delete k (filled_squares b)) (Some (i, j, c)).
Proof.
  unfold remove_random_square. case_bool_decide as Hlen; [|discriminate].
  destruct (randint next_draw 0 _ s) as [r s'].
  intros H. apply bind_Ok in H as ([i j] & Hk & H).
  apply bind_Ok in H as (c & Hc & H).
  apply bind_Ok in H as (g' & Hg & H).
  apply bind_Ok in H as (filled' & Hf & H).
  apply py_index_Ok in Hk.
  apply grid_get_Ok in Hc as (row & Hrow & Hcell).
  rewrite (grid_set_Ok _ i j row None Hrow) in Hg
    by (apply lookup_lt_is_Some_1; by eexists).
  rewrite py_pop_Ok in Hf by (apply lookup_lt_is_Some_1; by eexists).
  injection Hg as <-. injection Hf as <-. injection H as <- <-.
  by exists (Z.to_nat r), i, j, row, c.
Qed.

(** A removal succeeds as soon as a square is listed and the listed
    squares are cells of the grid. *)
Lemma remove_random_square_succeeds (b : Binairo) (s : Rng) :
  filled_squares b ≠ [] -> squares_in_grid b ->
  exists b1 s1, remove_random_square next_draw b s = Ok (b1, s1).
Proof.
  intros Hne Hin. unfold remove_random_square.
  assert (0 < length (filled_squares b))%nat as Hlen
    by (destruct (filled_squares b); [done | simpl; lia]).
  rewrite bool_decide_eq_true_2 by done.
  pose proof (randint_range next_draw 0
                (Z.of_nat (length (filled_squares b)) - 1) s
                ltac:(lia)) as Hr.
  destruct (randint next_draw 0 _ s) as [r s']. simpl in Hr.
  assert (Z.to_nat r < length (filled_squares b))%nat as Hk by lia.
  destruct (py_index_lt _ _ Hk) as ([i j] & Hidx & Hlook).
  rewrite Hidx. simpl.
  unfold squares_in_grid in Hin. rewrite Forall_forall in Hin.
  destruct (Hin (i, j)) as [c Hc];
    [by eapply list_elem_of_lookup_2|]. simpl in Hc.
  rewrite Hc. simpl.
  apply grid_get_Ok in Hc as (row & Hrow & Hcell).
  rewrite (grid_set_Ok _ i j row None Hrow)
    by (apply lookup_lt_is_Some_1; by eexists).
  simpl. rewrite py_pop_Ok by done. simpl. eauto.
Qed.

(** Undoing the removal that was just made. *)
Lemma cancel_after_remove (b b1 : Binairo) (s s1 : Rng) :
  remove_random_square next_draw b s = Ok (b1, s1) ->
  exists k i j c,
    filled_squares b !! k = Some (i, j) /\
    grid_get (grid b) i j = Ok c /\
    last_removed b1 = Some (i, j, c) /\
    cancel_last_remove b1 =
      Ok (mkBinairo (size b) (grid b)
            (delete k (filled_squares b) ++ [(i, j)]) (Some (i, j, c))).
Proof.
  intros (k & i & j & row & c & Hk & Hrow & Hcell & ->)%remove_random_square_inv.
  exists k, i, j, c. split_and!; [done | | done |].
  - apply grid_get_Ok. eauto.
  - unfold cancel_last_remove. simpl.
    by rewrite (grid_set_undo _ i j row c None Hrow Hcell).
Qed.

End RemovalFacts.

(** ** Construction *)

Section ConstructionFacts.

Context {Rng : Type}.
Variable next_draw : Rng -> Z * Rng.

Lemma random_grid_dense (size : Z) (s : Rng) :
  dense_square size (_generate_random_grid next_draw size s).1.
Proof.
  unfold _generate_random_grid, dense_square. split.
  - rewrite random_rows_length. unfold range. apply length_seq.
  - eapply Forall_impl; [apply random_rows_constant|].
    intros row (v & _ & ->). unfold py_repeat. split.
    + apply length_replicate.
    + apply Forall_forall. intros c Hc%elem_of_replicate_inv. eauto.
Qed.

Lemma dense_filled_exact (size : Z) (g : Grid)
    (lr : option (nat * nat * Cell)) :
  dense_square size g -> filled_exact (mkBinairo size g (all_squares size) lr).
Proof.
  intros [Hlen Hrows]. split; simpl; [apply NoDup_all_squares|].
  intros i j. rewrite elem_of_all_squares. rewrite Forall_forall in Hrows.
  split.
  - intros [Hi Hj].
    destruct (lookup_lt_is_Some_2 g i) as [row Hrow]; [lia|].
    destruct (Hrows row) as [Hrl Hcells];
      [by eapply list_elem_of_lookup_2|].
    destruct (lookup_lt_is_Some_2 row j) as [c Hc]; [lia|].
    rewrite Forall_forall in Hcells.
    destruct (Hcells c) as [v ->]; [by eapply list_elem_of_lookup_2|].
    exists v. apply grid_get_Ok. eauto.
  - intros (v & (row & Hrow & Hc)%grid_get_Ok).
    destruct (Hrows row) as [Hrl _]; [by eapply list_elem_of_lookup_2|].
    apply lookup_lt_Some in Hrow. apply lookup_lt_Some in Hc. lia.
Qed.

End ConstructionFacts.

(** ** The claims on class Binairo *)

Section BinairoClaims.

Context {Rng : Type}.
Variable next_draw : Rng -> Z * Rng.

(** C5 (defect of the code). A grid constructed without initial values
    never has a row holding both a 0 and a 1: whatever the generator
    draws, every row is a single value of 0..1 repeated [size] times, so
    the cells of a row are copies of one draw and not independent. *)
Theorem random_grid_rows_are_constant (size : Z) (s : Rng) :
  exists b s',
    Binairo_init next_draw size None s = Ok (b, s') /\
    Forall (fun row => exists v, (v = 0 \/ v = 1) /\
                                 row = py_repeat (Some v) size) (grid b).
Proof.
  unfold Binairo_init, _generate_random_grid.
  pose proof (random_rows_constant next_draw size (range size) s) as H.
  destruct (random_rows next_draw size (range size) s) as [g s'].
  eexists _, _. split; [reflexivity | exact H].
Qed.


(** C7 (amended). On a grid with at least one listed square, all listed
    squares being cells of the grid, a removal followed by its undo both
    succeed and give back the same size and the same cell values;
    [filled_squares] comes back as a permutation of what it was, the
    removed square having moved to the end, and [last_removed] then holds
    the removed square and the value its cell had. *)
Theorem remove_then_cancel_restores_cells (b : Binairo) (s : Rng) :
  filled_squares b ≠ [] -> squares_in_grid b ->
  exists b1 s1 b2 k sq,
    remove_random_square next_draw b s = Ok (b1, s1) /\
    cancel_last_remove b1 = Ok b2 /\
    size b2 = size b /\ grid b2 = grid b /\
    filled_squares b !! k = Some sq /\
    filled_squares b2 = delete k (filled_squares b) ++ [sq] /\
    filled_squares b2 ≡ₚ filled_squares b /\
    exists c, grid_get (grid b) sq.1 sq.2 = Ok c /\
              last_removed b2 = Some (sq.1, sq.2, c).
Proof.
  intros Hne Hin.
  destruct (remove_random_square_succeeds next_draw b s Hne Hin)
    as (b1 & s1 & Hrem).
  destruct (cancel_after_remove next_draw _ _ _ _ Hrem)
    as (k & i & j & c & Hk & Hget & _ & Hcancel).
  eexists b1, s1, _, k, (i, j). split_and!; try done; simpl.
  - rewrite (delete_Permutation _ _ _ Hk) at 2.
    by rewrite Permutation_app_comm.
  - by exists c.
Qed.

(** C8 (amended). Construction checks nothing about the size: for every
    integer size, zero, negative and odd ones included, it succeeds, with
    [filled_squares] listing all squares of [range(size)] and no removal
    recorded; the grid is the one supplied or, without one, a dense
    [size] by [size] grid (the empty grid when [size <= 0]). *)
Theorem Binairo_init_never_fails (size0 : Z) (initial_grid : option Grid)
    (s : Rng) :
  exists b s',
    Binairo_init next_draw size0 initial_grid s = Ok (b, s') /\
    size b = size0 /\ filled_squares b = all_squares size0 /\
    last_removed b = None /\
    match initial_grid with
    | Some g => grid b = g /\ s' = s
    | None => dense_square size0 (grid b)
    end.
Proof.
  unfold Binairo_init. destruct initial_grid as [g|].
  - eexists _, _. split_and!; done.
  - pose proof (random_grid_dense next_draw size0 s) as Hd.
    destruct (_generate_random_grid next_draw size0 s) as [g s2].
    eexists _, _. split_and!; done.
Qed.

(** C9 (amended). [cancel_last_remove] fails (unpacking [None]) exactly
    when no removal was ever recorded, as on a freshly constructed grid.
    With a recorded removal whose square is a cell of the grid it
    succeeds: the recorded value is written back, the square is appended
    to [filled_squares], and the record [last_removed] stays as it was. *)
Theorem cancel_last_remove_spec :
  (forall b, last_removed b = None -> cancel_last_remove b = Raise TypeError) /\
  (forall size0 initial_grid s,
      exists b s', Binairo_init next_draw size0 initial_grid s = Ok (b, s') /\
                   cancel_last_remove b = Raise TypeError) /\
  (forall b i j v,
      last_removed b = Some (i, j, v) ->
      (exists c, grid_get (grid b) i j = Ok c) ->
      exists g',
        cancel_last_remove b =
          Ok (mkBinairo (size b) g' (filled_squares b ++ [(i, j)])
                (Some (i, j, v))) /\
        grid_get g' i j = Ok v).
Proof.
  split_and!.
  - intros b Hnone. unfold cancel_last_remove. by rewrite Hnone.
  - intros size0 initial_grid s.
    unfold Binairo_init.
    destruct (match initial_grid with
              | Some g0 => (g0, s)
              | None => _generate_random_grid next_draw size0 s
              end) as [g s'].
    eexists _, _. split; reflexivity.
  - intros b i j v Hlast [c (row & Hrow & Hcell)%grid_get_Ok].
    assert (j < length row)%nat as Hj by (by eapply lookup_lt_Some).
    exists (<[i := <[j := v]> row]> (grid b)). split.
    + unfold cancel_last_remove. rewrite Hlast.
      by rewrite (grid_set_Ok _ i j row v Hrow Hj).
    + by apply grid_get_set_same.
Qed.

End BinairoClaims.

(** ** Loops that only add to the model *)

Lemma add_all_nil (m : CpModel) : add_all m [] = m.
Proof. destruct m. unfold add_all. simpl. by rewrite app_nil_r. Qed.

Lemma add_all_app (m : CpModel) (cs ds : list BoundedLinearExpression) :
  add_all (add_all m cs) ds = add_all m (cs ++ ds).
Proof. unfold add_all. simpl. by rewrite app_assoc. Qed.

Lemma for_each_adds {A : Type} (l : list A)
    (body : A -> CpModel -> Res CpModel)
    (g : A -> list BoundedLinearExpression) (m : CpModel) :
  (forall x m', x ∈ l -> body x m' = Ok (add_all m' (g x))) ->
  for_each l body m = Ok (add_all m (flat_map g l)).
Proof.
  revert m. induction l as [|x l IH]; intros m Hbody; simpl.
  - by rewrite add_all_nil.
  - rewrite Hbody by left. simpl.
    rewrite IH by (intros; apply Hbody; by right).
    by rewrite add_all_app.
Qed.

Lemma list_comp_map {A B : Type} (f : A -> Res B) (g : A -> B) (l : list A) :
  (forall x, x ∈ l -> f x = Ok (g x)) -> list_comp f l = Ok (map g l).
Proof.
  induction l as [|x l IH]; intros Hf; simpl; [done|].
  rewrite Hf by left. simpl.
  rewrite IH by (intros; apply Hf; by right). done.
Qed.

Lemma elem_of_range (n : Z) (k : nat) : k ∈ range n <-> (k < Z.to_nat n)%nat.
Proof. unfold range. rewrite elem_of_seq. lia. Qed.

Lemma py_slice_window (n : Z) (j : nat) :
  (j + 2 < Z.to_nat n)%nat ->
  py_slice (range n) j (j + 3) = [j; (j + 1)%nat; (j + 2)%nat].
Proof.
  intros Hj. unfold py_slice, range.
  replace (j + 3 - j)%nat with 3%nat by lia.
  apply list_eq. intros k.
  destruct (decide (k < 3)%nat) as [Hk|Hk].
  - rewrite lookup_take_lt, lookup_drop, lookup_seq_lt by lia.
    destruct k as [|[|[|k]]]; simpl; try (f_equal; lia).
  - rewrite lookup_take_ge by lia.
    destruct k as [|[|[|k]]]; simpl; try done; lia.
Qed.

(** ** The dict of variables *)

Lemma dict_set_fresh (d : VarGrid) (k : Square) (v : nat) :
  (forall v', (k, v') ∉ d) -> dict_set d k v = d ++ [(k, v)].
Proof.
  induction d as [|[k' v'] d IH]; intros Hfresh; simpl; [done|].
  destruct (decide (k' = k)) as [->|Hne].
  - exfalso. apply (Hfresh v'). by left.
  - rewrite IH; [done|]. intros v'' Hin. apply (Hfresh v''). by right.
Qed.

Lemma dict_get_map (f : Square -> nat) (l : list Square) (k : Square) :
  k ∈ l -> dict_get (map (fun sq => (sq, f sq)) l) k = Ok (f k).
Proof.
  induction l as [|k' l IH]; intros Hin; simpl; [by inversion Hin|].
  destruct (decide (k' = k)) as [->|Hne]; [done|].
  apply IH. by apply elem_of_cons in Hin as [->|Hin].
Qed.

Lemma var_grid_of_squares (n : Z) :
  var_grid_of n = map (fun sq => (sq, cell_var n sq.1 sq.2)) (all_squares n).
Proof.
  unfold var_grid_of, all_squares.
  induction (range n) as [|i l IH] at 2 4; simpl; [done|].
  rewrite map_app, IH. f_equal. by rewrite map_map.
Qed.

Lemma dict_get_var_grid_of (n : Z) (i j : nat) :
  (i < Z.to_nat n)%nat -> (j < Z.to_nat n)%nat ->
  dict_get (var_grid_of n) (i, j) = Ok (cell_var n i j).
Proof.
  intros Hi Hj. rewrite var_grid_of_squares.
  rewrite (dict_get_map (fun sq => cell_var n sq.1 sq.2)); [done|].
  by apply elem_of_all_squares.
Qed.

Lemma length_var_grid_of (n : Z) :
  length (var_grid_of n) = (Z.to_nat n * Z.to_nat n)%nat.
Proof.
  unfold var_grid_of, range.
  generalize (Z.to_nat n) at 2 3. intros k.
  generalize 0%nat at 2. intros a. revert a.
  induction k as [|k IH]; intros a; simpl; [lia|].
  rewrite length_app, length_map, length_seq, IH. lia.
Qed.

(** One row of [_build_var_grid]: the columns from [a] on. *)
Lemma build_var_row (n : Z) (i : nat)
    (body : nat -> VarGrid * CpModel -> Res (VarGrid * CpModel)) :
  (forall j vg m,
      body j (vg, m) =
        Ok (dict_set vg (i, j) (length (variables m)),
            mkCpModel (variables m ++ [(0, 1)]) (constraints m))) ->
  forall len a vg m,
    (forall j v, (a <= j)%nat -> ((i, j), v) ∉ vg) ->
    for_each (seq a len) body (vg, m) =
      Ok (vg ++ map (fun j => ((i, j), (length (variables m) + (j - a))%nat))
                  (seq a len),
          mkCpModel (variables m ++ replicate len (0, 1)) (constraints m)).
Proof.
  intros Hbody. induction len as [|len IH]; intros a vg m Hfresh; simpl.
  - rewrite !app_nil_r. by destruct m.
  - rewrite Hbody. simpl. rewrite dict_set_fresh by (intros v'; by apply Hfresh).
    rewrite IH.
    + simpl. rewrite <- !app_assoc. simpl.
      rewrite length_app. simpl. f_equal. f_equal.
      f_equal. f_equal; [f_equal; lia|].
      apply map_ext_in. intros j Hj%in_seq. f_equal. lia.
    + intros j v Hj [Hin|Hin]%elem_of_app.
      * apply (Hfresh j v); [lia | done].
      * apply list_elem_of_singleton in Hin. injection Hin as ->. lia.
Qed.

Lemma build_var_rows (n : Z)
    (body : nat -> nat -> VarGrid * CpModel -> Res (VarGrid * CpModel)) :
  (forall i j vg m,
      body i j (vg, m) =
        Ok (dict_set vg (i, j) (length (variables m)),
            mkCpModel (variables m ++ [(0, 1)]) (constraints m))) ->
  forall len a vg m,
    length (variables m) = (a * Z.to_nat n)%nat ->
    (forall i j v, (a <= i)%nat -> ((i, j), v) ∉ vg) ->
    for_each (seq a len) (fun i => for_each (range n) (body i)) (vg, m) =
      Ok (vg ++ flat_map (fun i => map (fun j => ((i, j), cell_var n i j))
                                     (range n)) (seq a len),
          mkCpModel (variables m ++ replicate (len * Z.to_nat n) (0, 1))
            (constraints m)).
Proof.
  intros Hbody. induction len as [|len IH]; intros a vg m Hlen Hfresh; simpl.
  - rewrite !app_nil_r. by destruct m.
  - pose proof (build_var_row n a (body a) (Hbody a) (Z.to_nat n) 0%nat vg m)
      as Hrow.
    fold (range n) in Hrow.
    rewrite Hrow by (intros j v _; by apply Hfresh).
    simpl. rewrite IH.
    + simpl. rewrite <- !app_assoc, replicate_add.
      assert (map (fun j => (a, j, (length (variables m) + (j - 0))%nat))
                (range n) =
              map (fun j => (a, j, cell_var n a j)) (range n)) as ->; [|done].
      apply map_ext_in. intros j _. unfold cell_var. f_equal. lia.
    + simpl. rewrite length_app, length_replicate. lia.
    + intros i j v Hi [Hin|Hin]%elem_of_app.
      * apply (Hfresh i j v); [lia | done].
      * apply list_elem_of_fmap in Hin as (j' & [= -> _] & _). lia.
Qed.

Lemma build_var_grid_Ok (n : Z) :
  _build_var_grid n CpModel_new =
    Ok (var_grid_of n,
        mkCpModel (replicate (Z.to_nat n * Z.to_nat n) (0, 1)) []).
Proof.
  unfold _build_var_grid, range at 1.
  rewrite (build_var_rows n
             (fun i j '(var_grid, model) =>
                let '(v, model) := NewIntVar 0 1 model in
                Ok (dict_set var_grid (i, j) v, model))).
  - done.
  - done.
  - simpl. lia.
  - intros i j v _ Hin. inversion Hin.
Qed.

(** ** The three groups of constraints *)

Lemma square_grid_cell (n : Z) (g : Grid) (i j : nat) :
  square_grid n g -> (i < Z.to_nat n)%nat -> (j < Z.to_nat n)%nat ->
  exists row c, g !! i = Some row /\ row !! j = Some c.
Proof.
  intros [Hlen Hrows] Hi Hj. rewrite Forall_forall in Hrows.
  destruct (lookup_lt_is_Some_2 g i) as [row Hrow]; [lia|].
  destruct (lookup_lt_is_Some_2 row j) as [c Hc].
  - rewrite (Hrows row); [done | by eapply list_elem_of_lookup_2].
  - eauto.
Qed.

Lemma add_initial_values_Ok (n : Z) (b : Binairo) (m : CpModel) :
  square_grid n (grid b) ->
  _add_initial_values n b (var_grid_of n) m =
    Ok (add_all m (flat_map (fun i => flat_map (fixed_at n (grid b) i) (range n))
                     (range n))).
Proof.
  intros Hsq. unfold _add_initial_values.
  apply for_each_adds. intros i m1 Hi%elem_of_range.
  apply for_each_adds. intros j m2 Hj%elem_of_range.
  destruct (square_grid_cell n (grid b) i j Hsq Hi Hj) as (row & c & Hrow & Hc).
  assert (grid_get (grid b) i j = Ok c) as -> by (apply grid_get_Ok; eauto).
  unfold fixed_at. rewrite Hrow. simpl. rewrite Hc.
  destruct c as [value|]; simpl.
  - by rewrite dict_get_var_grid_of.
  - by rewrite add_all_nil.
Qed.

Lemma window_row_Ok (n : Z) (i j : nat) :
  (i < Z.to_nat n)%nat -> (j + 2 < Z.to_nat n)%nat ->
  window n (var_grid_of n) (fun jl => (i, jl)) j = Ok (row_window n i j).
Proof.
  intros Hi Hj. unfold window. rewrite py_slice_window by done. simpl.
  rewrite !dict_get_var_grid_of by lia. done.
Qed.

Lemma window_col_Ok (n : Z) (i j : nat) :
  (i < Z.to_nat n)%nat -> (j + 2 < Z.to_nat n)%nat ->
  window n (var_grid_of n) (fun jl => (jl, i)) j = Ok (col_window n i j).
Proof.
  intros Hi Hj. unfold window. rewrite py_slice_window by done. simpl.
  rewrite !dict_get_var_grid_of by lia. done.
Qed.

Lemma add_constraint_c1_Ok (n : Z) (m : CpModel) :
  _add_constraint_c1 n (var_grid_of n) m =
    Ok (add_all m (flat_map (fun i => flat_map (c1_at n i) (range (n - 2)))
                     (range n))).
Proof.
  unfold _add_constraint_c1.
  apply for_each_adds. intros i m1 Hi%elem_of_range.
  apply for_each_adds. intros j m2 Hj%elem_of_range.
  rewrite window_row_Ok, window_col_Ok by lia. simpl.
  unfold Add, add_all, c1_at. simpl. by rewrite <- !app_assoc.
Qed.

Lemma add_constraint_c2_Ok (n : Z) (m : CpModel) :
  _add_constraint_c2 n (var_grid_of n) m =
    Ok (add_all m
          (flat_map (fun i => [ExprEq (py_sum (row_vars n i)) (n / 2)]) (range n) ++
           flat_map (fun j => [ExprEq (py_sum (col_vars n j)) (n / 2)]) (range n))).
Proof.
  unfold _add_constraint_c2.
  rewrite (for_each_adds (range n) _
             (fun i => [ExprEq (py_sum (row_vars n i)) (n / 2)])).
  - simpl.
    rewrite (for_each_adds (range n) _
               (fun j => [ExprEq (py_sum (col_vars n j)) (n / 2)])).
    + by rewrite add_all_app.
    + intros j m1 Hj%elem_of_range.
      rewrite (list_comp_map _ (fun i => LVar (cell_var n i j))); [done|].
      intros i Hi%elem_of_range. by rewrite dict_get_var_grid_of.
  - intros i m1 Hi%elem_of_range.
    rewrite (list_comp_map _ (fun j => LVar (cell_var n i j))); [done|].
    intros j Hj%elem_of_range. by rewrite dict_get_var_grid_of.
Qed.

Lemma build_model_Ok (n : Z) (b : Binairo) :
  square_grid n (grid b) ->
  build_model n b = Ok (var_grid_of n, model_of n (grid b)).
Proof.
  intros Hsq. unfold build_model. rewrite build_var_grid_Ok. simpl.
  rewrite add_initial_values_Ok by done. simpl.
  rewrite add_constraint_c1_Ok. simpl.
  rewrite add_constraint_c2_Ok. simpl.
  unfold model_of, constraints_of, add_all. simpl.
  by rewrite <- !app_assoc.
Qed.

Lemma elem_of_flat_map {A B : Type} (f : A -> list B) (l : list A) (y : B) :
  y ∈ flat_map f l <-> exists x, x ∈ l /\ y ∈ f x.
Proof.
  rewrite list_elem_of_In, in_flat_map.
  split; intros (x & Hx & Hy); exists x; by rewrite ?list_elem_of_In in *.
Qed.

Lemma elem_of_fixed (n : Z) (g : Grid) (c : BoundedLinearExpression) :
  c ∈ flat_map (fun i => flat_map (fixed_at n g i) (range n)) (range n) <->
  exists i j value,
    (i < Z.to_nat n)%nat /\ (j < Z.to_nat n)%nat /\
    grid_get g i j = Ok (Some value) /\
    c = ExprEq (LVar (cell_var n i j)) value.
Proof.
  rewrite elem_of_flat_map. split.
  - intros (i & Hi%elem_of_range & (j & Hj%elem_of_range & Hc)%elem_of_flat_map).
    unfold fixed_at in Hc.
    destruct (g !! i) as [row|] eqn:Hrow; simpl in Hc; [|by inversion Hc].
    destruct (row !! j) as [[value|]|] eqn:Hcell; try by inversion Hc.
    apply list_elem_of_singleton in Hc as ->.
    exists i, j, value. split_and!; try done. apply grid_get_Ok. eauto.
  - intros (i & j & value & Hi & Hj & (row & Hrow & Hcell)%grid_get_Ok & ->).
    exists i. split; [by apply elem_of_range|].
    apply elem_of_flat_map. exists j. split; [by apply elem_of_range|].
    unfold fixed_at. rewrite Hrow. simpl. rewrite Hcell. by left.
Qed.

Lemma elem_of_c1 (n : Z) (c : BoundedLinearExpression) :
  c ∈ flat_map (fun i => flat_map (c1_at n i) (range (n - 2))) (range n) <->
  exists i j,
    (i < Z.to_nat n)%nat /\ (j + 2 < Z.to_nat n)%nat /\
    (c = ExprGt (py_sum (row_window n i j)) 0 \/
     c = ExprLt (py_sum (row_window n i j)) 3 \/
     c = ExprGt (py_sum (col_window n i j)) 0 \/
     c = ExprLt (py_sum (col_window n i j)) 3).
Proof.
  rewrite elem_of_flat_map. split.
  - intros (i & Hi%elem_of_range & (j & Hj%elem_of_range & Hc)%elem_of_flat_map).
    exists i, j. split_and!; [done | lia |].
    unfold c1_at in Hc. rewrite !elem_of_cons in Hc.
    destruct Hc as [?|[?|[?|[?|Hc]]]]; auto. by inversion Hc.
  - intros (i & j & Hi & Hj & Hc).
    exists i. split; [by apply elem_of_range|].
    apply elem_of_flat_map. exists j. split; [apply elem_of_range; lia|].
    unfold c1_at. rewrite !elem_of_cons. tauto.
Qed.

Lemma elem_of_lines (n : Z) (vars : nat -> list LinearExpr)
    (c : BoundedLinearExpression) :
  c ∈ flat_map (fun i => [ExprEq (py_sum (vars i)) (n / 2)]) (range n) <->
  exists i, (i < Z.to_nat n)%nat /\ c = ExprEq (py_sum (vars i)) (n / 2).
Proof.
  rewrite elem_of_flat_map. split.
  - intros (i & Hi%elem_of_range & ->%list_elem_of_singleton). eauto.
  - intros (i & Hi & ->). exists i. split; [by apply elem_of_range | by left].
Qed.

(** ** The claim on the constraint model *)

(** C3. The model built from a [size] by [size] grid has one 0..1 variable
    per cell and contains exactly these constraints: for every non-empty
    cell, its variable equal to the value of the cell; for every row and
    every column and every window of three consecutive positions, the sum
    of the three variables greater than 0 and less than 3; for every row
    and every column, the sum of its variables equal to [size // 2]. *)
Theorem build_model_constraints (n : Z) (b : Binairo) :
  square_grid n (grid b) ->
  exists var_grid m,
    build_model n b = Ok (var_grid, m) /\
    variables m = replicate (Z.to_nat n * Z.to_nat n)%nat (0, 1) /\
    (forall i j, (i < Z.to_nat n)%nat -> (j < Z.to_nat n)%nat ->
                 dict_get var_grid (i, j) = Ok (cell_var n i j)) /\
    forall c, c ∈ constraints m <->
      (exists i j value,
          (i < Z.to_nat n)%nat /\ (j < Z.to_nat n)%nat /\
          grid_get (grid b) i j = Ok (Some value) /\
          c = ExprEq (LVar (cell_var n i j)) value) \/
      (exists i j,
          (i < Z.to_nat n)%nat /\ (j + 2 < Z.to_nat n)%nat /\
          (c = ExprGt (py_sum (row_window n i j)) 0 \/
           c = ExprLt (py_sum (row_window n i j)) 3 \/
           c = ExprGt (py_sum (col_window n i j)) 0 \/
           c = ExprLt (py_sum (col_window n i j)) 3)) \/
      (exists i, (i < Z.to_nat n)%nat /\
                 c = ExprEq (py_sum (row_vars n i)) (n / 2)) \/
      (exists j, (j < Z.to_nat n)%nat /\
                 c = ExprEq (py_sum (col_vars n j)) (n / 2)).
Proof.
  intros Hsq. exists (var_grid_of n), (model_of n (grid b)).
  split_and!.
  - by apply build_model_Ok.
  - done.
  - intros i j Hi Hj. by apply dict_get_var_grid_of.
  - intros c. unfold model_of, constraints_of. simpl.
    rewrite !elem_of_app, elem_of_fixed, elem_of_c1.
    by rewrite (elem_of_lines n (row_vars n)), (elem_of_lines n (col_vars n)).
Qed.

(** ** Solution enumeration *)

Lemma map_nth_seq {A B : Type} (f : A -> B) (l : list A) (d : A) :
  map (fun s => f (nth s l d)) (seq 0 (length l)) = map f l.
Proof.
  induction l as [|x l IH] using rev_ind; [done|].
  rewrite length_app. simpl. rewrite Nat.add_1_r, seq_S, !map_app. simpl.
  rewrite app_nth2, Nat.sub_diag by lia. simpl. f_equal.
  rewrite <- IH. apply map_ext_in. intros s Hs%in_seq.
  by rewrite app_nth1 by lia.
Qed.

Lemma py_index_nth {A : Type} (l : list A) (k : nat) (d : A) :
  (k < length l)%nat -> py_index l k = Ok (nth k l d).
Proof.
  intros Hk. apply py_index_Ok.
  destruct (nth_lookup_or_length l k d) as [H|H]; [done | lia].
Qed.

Lemma length_filter_le {A : Type} (f : A -> bool) (l : list A) :
  (length (List.filter f l) <= length l)%nat.
Proof.
  induction l as [|x l IH]; simpl; [lia|]. destruct (f x); simpl; lia.
Qed.


Section SolveFacts.

Variable search : CpModel -> list (list Z).

(** The callback stops the search at the second assignment. *)
Lemma drive_init (var_grid : VarGrid) (found : list (list Z)) :
  solutions (drive found (VarArraySolutions_init var_grid 2)).1 =
    map (raw_solution var_grid) (take 2 found).
Proof.
  destruct found as [|a [|a' found]]; reflexivity.
Qed.

Lemma SearchForAllSolutions_init (var_grid : VarGrid) (m : CpModel) :
  exists status cb,
    SearchForAllSolutions search m (VarArraySolutions_init var_grid 2) =
      (status, cb) /\
    solutions cb = map (raw_solution var_grid) (take 2 (search m)) /\
    (search m = [] -> status = INFEASIBLE) /\
    (search m ≠ [] -> status = FEASIBLE \/ status = OPTIMAL).
Proof.
  unfold SearchForAllSolutions.
  pose proof (drive_init var_grid (search m)) as Hd.
  destruct (drive (search m) (VarArraySolutions_init var_grid 2))
    as [cb stopped].
  eexists _, cb. split_and!; [reflexivity | exact Hd | |].
  - by intros ->.
  - intros Hne. destruct (search m); [done|]. destruct stopped; auto.
Qed.

(** [_solve] on the variables of a board never raises: the indices
    [i + j] it reads stay below the number of variables. *)
Lemma solve_Ok (n : Z) (m : CpModel) :
  _solve search n (var_grid_of n) m =
    Ok (map (fun a => clean_solution n (raw_solution (var_grid_of n) a))
          (take 2 (search m))).
Proof.
  unfold _solve.
  destruct (SearchForAllSolutions_init (var_grid_of n) m)
    as (status & cb & -> & Hsols & Hnil & Hcons).
  destruct (search m) as [|a0 found] eqn:Hsearch.
  { rewrite Hnil by done. done. }
  assert (list_comp (fun s =>
            list_comp (fun j =>
              list_comp (fun i =>
                raw ← py_index (solutions cb) s; py_index raw (i + j)%nat)
                (range n)) (range n))
            (range (Z.of_nat (length (solutions cb)))) =
          Ok (map (fun a => clean_solution n (raw_solution (var_grid_of n) a))
                (take 2 (a0 :: found)))) as Hcomp.
  { rewrite (list_comp_map _
               (fun s => clean_solution n (nth s (solutions cb) []))).
    - unfold range at 1. rewrite Nat2Z.id, map_nth_seq, Hsols.
      by rewrite map_map.
    - intros s Hs%elem_of_range. rewrite Nat2Z.id in Hs.
      unfold clean_solution. apply list_comp_map.
      intros j Hj%elem_of_range. apply list_comp_map.
      intros i Hi%elem_of_range.
      rewrite (py_index_nth _ s []) by done. simpl.
      apply py_index_nth.
      assert (In (nth s (solutions cb) []) (solutions cb)) as Hin
        by (by apply nth_In).
      rewrite Hsols in Hin |- *. apply in_map_iff in Hin as (a & <- & _).
      unfold raw_solution, dict_values.
      rewrite !length_map, length_var_grid_of. nia. }
  destruct (Hcons ltac:(done)) as [-> | ->]; exact Hcomp.
Qed.

Lemma solve_length (n : Z) (m : CpModel) (sols : list (list (list Z))) :
  _solve search n (var_grid_of n) m = Ok sols -> (length sols <= 2)%nat.
Proof.
  rewrite solve_Ok. intros [= <-]. rewrite length_map, length_take. lia.
Qed.

End SolveFacts.

(** ** The C3 filter *)

Lemma length_remove_dups_le {A : Type} `{EqDecision A} (l : list A) :
  (length (remove_dups l) <= length l)%nat.
Proof.
  induction l as [|x l IH]; simpl; [lia|].
  destruct (decide_rel elem_of x l); simpl; lia.
Qed.

Lemma len_set_NoDup {A : Type} `{EqDecision A} (l : list A) :
  len_set l = length l <-> NoDup l.
Proof.
  unfold len_set. induction l as [|x l IH]; simpl.
  - split; [constructor | done].
  - pose proof (length_remove_dups_le l) as Hle.
    destruct (decide_rel elem_of x l) as [Hin|Hnotin]; simpl.
    + split; [lia|]. intros [Hx _]%NoDup_cons. done.
    + rewrite NoDup_cons, <- IH. split; [intros [=]; done | intros [_ ->]; done].
Qed.




Lemma clean_solution_square (n : Z) (raw : list Z) :
  square_board n (clean_solution n raw).
Proof.
  unfold square_board, clean_solution, range. split.
  - by rewrite length_map, length_seq.
  - apply Forall_forall. intros row Hrow%list_elem_of_In.
    apply in_map_iff in Hrow as (j & <- & _).
    by rewrite length_map, length_seq.
Qed.

(** ** A dense grid has at most one feasible assignment *)

Lemma in_domains_length (a : list Z) (doms : list (Z * Z)) :
  in_domains a doms = true -> length a = length doms.
Proof.
  revert doms. induction a as [|x a IH]; intros [|[lb ub] doms]; simpl;
    try done.
  rewrite !andb_true_iff. intros [_ H]. f_equal. by apply IH.
Qed.

Lemma cell_var_onto (n : Z) (k : nat) :
  (k < Z.to_nat n * Z.to_nat n)%nat ->
  exists i j, (i < Z.to_nat n)%nat /\ (j < Z.to_nat n)%nat /\ k = cell_var n i j.
Proof.
  intros Hk. unfold cell_var.
  assert (Z.to_nat n ≠ 0)%nat as Hn by lia.
  exists (k / Z.to_nat n)%nat, (k mod Z.to_nat n)%nat. split_and!.
  - apply Nat.Div0.div_lt_upper_bound. lia.
  - by apply Nat.mod_upper_bound.
  - rewrite (Nat.div_mod_eq k (Z.to_nat n)) at 1. lia.
Qed.

Lemma feasible_dense (n : Z) (g : Grid) (a : list Z) :
  dense_square n g -> feasible (model_of n g) a = true ->
  length a = (Z.to_nat n * Z.to_nat n)%nat /\
  forall i j, (i < Z.to_nat n)%nat -> (j < Z.to_nat n)%nat ->
              grid_get g i j = Ok (Some (nth (cell_var n i j) a 0)).
Proof.
  intros Hd. unfold feasible. rewrite andb_true_iff, forallb_forall.
  intros [Hdom Hcs]. split.
  - apply in_domains_length in Hdom. simpl in Hdom.
    by rewrite length_replicate in Hdom.
  - intros i j Hi Hj.
    pose proof (dense_filled_exact n g None Hd) as [_ Hiff]. simpl in Hiff.
    destruct (proj1 (Hiff i j)) as [v Hv]; [by apply elem_of_all_squares|].
    rewrite Hv. do 2 f_equal.
    specialize (Hcs (ExprEq (LVar (cell_var n i j)) v)).
    simpl in Hcs. symmetry. apply Z.eqb_eq, Hcs, list_elem_of_In.
    unfold constraints_of. rewrite elem_of_app, elem_of_fixed.
    left. by exists i, j, v.
Qed.

Lemma feasible_dense_unique (n : Z) (g : Grid) (a1 a2 : list Z) :
  dense_square n g ->
  feasible (model_of n g) a1 = true -> feasible (model_of n g) a2 = true ->
  a1 = a2.
Proof.
  intros Hd [Hl1 H1]%(feasible_dense n g a1 Hd) [Hl2 H2]%(feasible_dense n g a2 Hd).
  apply (nth_ext _ _ 0 0); [lia|].
  intros k Hk. rewrite Hl1 in Hk.
  destruct (cell_var_onto n k Hk) as (i & j & Hi & Hj & ->).
  pose proof (H1 i j Hi Hj) as E1. rewrite (H2 i j Hi Hj) in E1.
  by injection E1.
Qed.

Lemma dense_square_grid (n : Z) (g : Grid) : dense_square n g -> square_grid n g.
Proof.
  intros [Hlen Hrows]. split; [done|].
  eapply Forall_impl; [exact Hrows|]. by intros row [? _].
Qed.

(** ** The removal loop *)

Section GeneratorFacts.

Context {Rng : Type}.
Variable next_draw : Rng -> Z * Rng.
Variable search : CpModel -> list (list Z).

Lemma get_valid_solutions_Ok (n : Z) (b : Binairo) :
  square_grid n (grid b) ->
  _get_valid_solutions search n b =
    Ok (List.filter _is_valid_c3
          (map (fun a => clean_solution n (raw_solution (var_grid_of n) a))
             (take 2 (search (model_of n (grid b)))))).
Proof.
  intros Hsq. unfold _get_valid_solutions.
  rewrite build_model_Ok by done. simpl. by rewrite solve_Ok.
Qed.


(** On the grid that [generate_binairo] starts from, the solver finds at
    most one assignment. *)
Lemma initial_solutions (n : Z) (s s' : Rng) (b : Binairo)
    (sols : list (list (list Z))) :
  sound_solver search ->
  Binairo_init next_draw n None s = Ok (b, s') ->
  _get_valid_solutions search n b = Ok sols ->
  (length sols <= 1)%nat.
Proof.
  intros Hsound Hinit Hsols.
  assert (dense_square n (grid b)) as Hd.
  { unfold Binairo_init in Hinit.
    pose proof (random_grid_dense next_draw n s) as Hd.
    destruct (_generate_random_grid next_draw n s) as [g s2].
    by injection Hinit as <- _. }
  rewrite get_valid_solutions_Ok in Hsols by (by apply dense_square_grid).
  injection Hsols as <-.
  etrans; [apply length_filter_le|]. rewrite length_map.
  destruct (Hsound (model_of n (grid b))) as [Hnd Hfeas].
  destruct (search (model_of n (grid b))) as [|a1 [|a2 found]]; simpl;
    [lia | lia |].
  exfalso. apply NoDup_cons in Hnd as [Hnotin _]. apply Hnotin.
  assert (a1 = a2) as ->; [|by left].
  apply (feasible_dense_unique n (grid b)); [done | |];
    apply Hfeas; [left | right; left].
Qed.

(** The loop exits only with a one-element list, the one that the
    enumeration gives on the grid it exits with. *)
Lemma removal_loop_exit (fuel : nat) (n : Z) :
  forall (b0 : Binairo) (sols0 : list (list (list Z))) (s0 : Rng)
         (b : Binairo) (sols : list (list (list Z))) (s : Rng),
    (sols0 = [] \/
     exists sol, sols0 = [sol] /\ _get_valid_solutions search n b0 = Ok [sol]) ->
    removal_loop next_draw search fuel n b0 sols0 s0 = Some (Ok (b, sols, s)) ->
    exists sol, sols = [sol] /\ _get_valid_solutions search n b = Ok [sol].
Proof.
  induction fuel as [|fuel IH]; intros b0 sols0 s0 b sols s Hpre Hloop.
  - simpl in Hloop. case_bool_decide as Hlen; [done|].
    injection Hloop as <- <- <-.
    destruct Hpre as [->|Hpre]; [done | exact Hpre].
  - simpl in Hloop. case_bool_decide as Hlen.
    + destruct (remove_random_square next_draw b0 s0) as [[b1 s1]|e];
        [|done].
      destruct (_get_valid_solutions search n b1) as [sols1|e] eqn:Hsols1;
        [|done].
      case_bool_decide as Hmany.
      * destruct (cancel_last_remove b1) as [b2|e]; [|done].
        apply (IH b2 sols0 s1 b sols s); [|done]. left.
        by apply length_zero_iff_nil.
      * apply (IH b1 sols1 s1 b sols s); [|done].
        destruct sols1 as [|sol [|sol' sols1]]; [by left | | simpl in Hmany; lia].
        right. by exists sol.
    + injection Hloop as <- <- <-.
      destruct Hpre as [->|Hpre]; [done | exact Hpre].
Qed.

Lemma generate_loop_exit (fuel : nat) (n : Z) (s s' : Rng) (b : Binairo)
    (sols : list (list (list Z))) :
  sound_solver search ->
  generate_loop next_draw search fuel n s = Some (Ok (b, sols, s')) ->
  exists sol, sols = [sol] /\ _get_valid_solutions search n b = Ok [sol].
Proof.
  intros Hsound. unfold generate_loop.
  destruct (Binairo_init next_draw n None s) as [[b0 s0]|e] eqn:Hinit;
    [|done].
  destruct (_get_valid_solutions search n b0) as [sols0|e] eqn:Hsols0;
    [|done].
  apply removal_loop_exit.
  pose proof (initial_solutions n s s0 b0 sols0 Hsound Hinit Hsols0) as Hlen.
  destruct sols0 as [|sol [|sol' sols0]]; [by left | | simpl in Hlen; lia].
  right. by exists sol.
Qed.

(** X16. Running the enumeration of the code again on a grid that
    [generate_binairo] returned gives a one-element list, holding the
    returned board. The boards counted are those [_solve] rebuilds, so this
    is not a count of the solutions of the grid. *)
Theorem generated_puzzle_has_one_solution (fuel : nat) (n : Z) (s : Rng)
    (b : Binairo) (sol : list (list Z)) :
  sound_solver search ->
  generate_binairo next_draw search fuel n s = Some (Ok (b, sol)) ->
  _get_valid_solutions search n b = Ok [sol].
Proof.
  intros Hsound. unfold generate_binairo.
  destruct (generate_loop next_draw search fuel n s)
    as [[[[b0 sols] s']|e]|] eqn:Hloop; [|done|done].
  apply (generate_loop_exit _ _ _ _ _ _ Hsound) in Hloop
    as (sol0 & -> & Hvalid).
  simpl. by intros [= <- <-].
Qed.

(** C10. When the loop of [generate_binairo] ends, the solution list has
    exactly one element, so that reading its first element in the return
    expression is in bounds and the call returns. *)
Theorem loop_exit_solution_in_bounds (fuel : nat) (n : Z) (s s' : Rng)
    (b : Binairo) (sols : list (list (list Z))) :
  sound_solver search ->
  generate_loop next_draw search fuel n s = Some (Ok (b, sols, s')) ->
  exists sol,
    sols = [sol] /\ py_index sols 0 = Ok sol /\
    generate_binairo next_draw search fuel n s = Some (Ok (b, sol)).
Proof.
  intros Hsound Hloop.
  destruct (generate_loop_exit _ _ _ _ _ _ Hsound Hloop) as (sol & -> & _).
  exists sol. split_and!; [done | done |].
  unfold generate_binairo. by rewrite Hloop.
Qed.

End GeneratorFacts.

(** ** The reference solver meets what is assumed of a solver *)

Lemma NoDup_all_assignments (doms : list (Z * Z)) :
  NoDup (all_assignments doms).
Proof.
  induction doms as [|[lb ub] doms IH]; simpl.
  - apply NoDup_singleton.
  - change (NoDup (seqZ lb (ub - lb + 1) ≫=
                     (fun x => map (cons x) (all_assignments doms)))).
    apply NoDup_bind.
    + intros x1 x2 a _ _ H1 H2.
      apply list_elem_of_fmap in H1 as (a1 & -> & _).
      apply list_elem_of_fmap in H2 as (a2 & [= -> _] & _). done.
    + intros x _. apply NoDup_ListNoDup, Finite.Injective_map_NoDup.
      * by intros a1 a2 [=].
      * by apply NoDup_ListNoDup.
    + apply NoDup_seqZ.
Qed.

Lemma all_assignments_complete (doms : list (Z * Z)) (a : list Z) :
  in_domains a doms = true -> a ∈ all_assignments doms.
Proof.
  revert a. induction doms as [|[lb ub] doms IH]; intros [|x a]; simpl;
    try done.
  - intros _. by left.
  - rewrite !andb_true_iff. intros [[Hlb Hub] Hrest].
    apply elem_of_flat_map. exists x. split.
    + apply elem_of_seqZ. lia.
    + apply list_elem_of_fmap. exists a. split; [done | by apply IH].
Qed.

Lemma brute_search_sound : sound_solver brute_search.
Proof.
  intros m. unfold brute_search. split.
  - apply NoDup_ListNoDup, List.NoDup_filter, NoDup_ListNoDup.
    apply NoDup_all_assignments.
  - intros a Hin%list_elem_of_In. by apply filter_In in Hin as [_ Hf].
Qed.

Lemma brute_search_complete (m : CpModel) (a : list Z) :
  feasible m a = true -> a ∈ brute_search m.
Proof.
  intros Hf. unfold brute_search. apply list_elem_of_In, filter_In.
  split; [|done]. apply list_elem_of_In, all_assignments_complete.
  unfold feasible in Hf. by apply andb_true_iff in Hf as [Hd _].
Qed.

(** * The properties at concrete runs *)

(** The runs below use the scripted generator and the reference solver.
    With size 2 and the draws 0, 0 the grid starts as [[0, 0], [0, 0]];
    the draws 1, 1 then remove the squares (0, 1) and (1, 0). *)

(** C2 (defect of the code). With size 2 and the draws 0, 0, 1, 1,
    [generate_binairo] returns the grid [[0, _], [_, 0]], whose only
    feasible assignment is the board [[0, 1], [1, 0]]; the solution it
    returns with it is [[0, 1], [1, 1]], built by reading the element
    [i + j] of the stored values for the cell [i] of row [j]. That board is
    not balanced (its second row sums to 2, not to 1) and it has a 1 where
    the returned grid has a 0. *)
Theorem returned_solution_size2_unbalanced :
  generate_binairo scripted brute_search 2 2 [0; 0; 1; 1] =
    Some (Ok (mkBinairo 2 [[Some 0; None]; [None; Some 0]]
                [(0, 0); (1, 1)]%nat (Some (1%nat, 0%nat, Some 0)),
              [[0; 1]; [1; 1]])) /\
  brute_search (model_of 2 [[Some 0; None]; [None; Some 0]]) = [[0; 1; 1; 0]] /\
  balanced 2 [[0; 1]; [1; 1]] = false /\
  agrees [[Some 0; None]; [None; Some 0]] [[0; 1]; [1; 1]] = false /\
  balanced 2 [[0; 1]; [1; 0]] = true /\
  agrees [[Some 0; None]; [None; Some 0]] [[0; 1]; [1; 0]] = true.
Proof. split_and!; vm_compute; reflexivity. Qed.

Lemma generated_puzzle_has_one_solution_witness :
  _get_valid_solutions brute_search 2
    (mkBinairo 2 [[Some 0; None]; [None; Some 0]]
       [(0, 0); (1, 1)]%nat (Some (1%nat, 0%nat, Some 0))) =
    Ok [[[0; 1]; [1; 1]]].
Proof.
  apply (generated_puzzle_has_one_solution scripted brute_search 2 2
           [0; 0; 1; 1]).
  - exact brute_search_sound.
  - vm_compute. reflexivity.
Defined.

Lemma loop_exit_solution_in_bounds_witness :
  exists sol,
    [[[0; 1]; [1; 1]]] = [sol] /\
    py_index [[[0; 1]; [1; 1]]] 0 = Ok sol /\
    generate_binairo scripted brute_search 2 2 [0; 0; 1; 1] =
      Some (Ok (mkBinairo 2 [[Some 0; None]; [None; Some 0]]
                  [(0, 0); (1, 1)]%nat (Some (1%nat, 0%nat, Some 0)), sol)).
Proof.
  apply (loop_exit_solution_in_bounds scripted brute_search 2 2
           [0; 0; 1; 1] []).
  - exact brute_search_sound.
  - vm_compute. reflexivity.
Defined.

Lemma build_model_constraints_witness :
  exists var_grid m,
    build_model 2 (mkBinairo 2 [[Some 0; None]; [None; Some 0]] [] None) =
      Ok (var_grid, m) /\
    variables m = replicate (Z.to_nat 2 * Z.to_nat 2)%nat (0, 1) /\
    (forall i j, (i < Z.to_nat 2)%nat -> (j < Z.to_nat 2)%nat ->
                 dict_get var_grid (i, j) = Ok (cell_var 2 i j)) /\
    forall c, c ∈ constraints m <->
      (exists i j value,
          (i < Z.to_nat 2)%nat /\ (j < Z.to_nat 2)%nat /\
          grid_get [[Some 0; None]; [None; Some 0]] i j = Ok (Some value) /\
          c = ExprEq (LVar (cell_var 2 i j)) value) \/
      (exists i j,
          (i < Z.to_nat 2)%nat /\ (j + 2 < Z.to_nat 2)%nat /\
          (c = ExprGt (py_sum (row_window 2 i j)) 0 \/
           c = ExprLt (py_sum (row_window 2 i j)) 3 \/
           c = ExprGt (py_sum (col_window 2 i j)) 0 \/
           c = ExprLt (py_sum (col_window 2 i j)) 3)) \/
      (exists i, (i < Z.to_nat 2)%nat /\
                 c = ExprEq (py_sum (row_vars 2 i)) (2 / 2)) \/
      (exists j, (j < Z.to_nat 2)%nat /\
                 c = ExprEq (py_sum (col_vars 2 j)) (2 / 2)).
Proof.
  apply (build_model_constraints 2
           (mkBinairo 2 [[Some 0; None]; [None; Some 0]] [] None)).
  split; [reflexivity | repeat constructor].
Defined.



(** C7 as stated fails: after a removal and its undo the cells are back
    but [filled_squares] is in another order, and a removal is recorded. *)
Lemma remove_then_cancel_reorders :
  exists b s b1 s1 b2,
    filled_squares b ≠ [] /\
    remove_random_square scripted b s = Ok (b1, s1) /\
    cancel_last_remove b1 = Ok b2 /\
    grid b2 = grid b /\
    filled_squares b = [(0, 0); (0, 1); (1, 0); (1, 1)]%nat /\
    filled_squares b2 = [(0, 1); (1, 0); (1, 1); (0, 0)]%nat /\
    filled_squares b2 ≠ filled_squares b /\
    last_removed b = None /\ last_removed b2 = Some (0%nat, 0%nat, Some 0).
Proof.
  exists (mkBinairo 2 [[Some 0; Some 0]; [Some 1; Some 1]]
            [(0, 0); (0, 1); (1, 0); (1, 1)]%nat None), [0].
  eexists _, _, _. split_and!; try reflexivity; simpl; discriminate.
Qed.

Lemma remove_then_cancel_restores_cells_witness :
  exists b1 s1 b2 k sq,
    remove_random_square scripted
      (mkBinairo 2 [[Some 0; Some 0]; [Some 1; Some 1]]
         [(0, 0); (0, 1); (1, 0); (1, 1)]%nat None) [0] = Ok (b1, s1) /\
    cancel_last_remove b1 = Ok b2 /\
    size b2 = 2 /\ grid b2 = [[Some 0; Some 0]; [Some 1; Some 1]] /\
    [(0, 0); (0, 1); (1, 0); (1, 1)]%nat !! k = Some sq /\
    filled_squares b2 =
      delete k [(0, 0); (0, 1); (1, 0); (1, 1)]%nat ++ [sq] /\
    filled_squares b2 ≡ₚ [(0, 0); (0, 1); (1, 0); (1, 1)]%nat /\
    exists c, grid_get [[Some 0; Some 0]; [Some 1; Some 1]] sq.1 sq.2 = Ok c /\
              last_removed b2 = Some (sq.1, sq.2, c).
Proof.
  apply (remove_then_cancel_restores_cells scripted
           (mkBinairo 2 [[Some 0; Some 0]; [Some 1; Some 1]]
              [(0, 0); (0, 1); (1, 0); (1, 1)]%nat None) [0]).
  - discriminate.
  - repeat (constructor; [eexists; reflexivity|]). constructor.
Defined.

(** C8 as stated fails: construction succeeds with the odd size 3, with
    size 0 and with the negative size -2, and with the odd size 1 the
    generator goes on to solve and returns a puzzle. *)
Lemma odd_and_nonpositive_sizes_accepted :
  Binairo_init scripted 3 None [1; 0; 1] =
    Ok (mkBinairo 3
          [[Some 1; Some 1; Some 1]; [Some 0; Some 0; Some 0];
           [Some 1; Some 1; Some 1]]
          [(0, 0); (0, 1); (0, 2); (1, 0); (1, 1); (1, 2);
           (2, 0); (2, 1); (2, 2)]%nat None, []) /\
  Binairo_init scripted 0 None [] = Ok (mkBinairo 0 [] [] None, []) /\
  Binairo_init scripted (-2) None [] = Ok (mkBinairo (-2) [] [] None, []) /\
  generate_binairo scripted brute_search 0 1 [0] =
    Some (Ok (mkBinairo 1 [[Some 0]] [(0, 0)%nat] None, [[0]])).
Proof. split_and!; vm_compute; reflexivity. Qed.

(** C9 as stated fails: right after an undo, a second undo succeeds (it
    lists the square once more), and the record of the removal is still
    there after each of them. *)
Lemma second_cancel_succeeds :
  exists b1 s1 b2 b3,
    remove_random_square scripted
      (mkBinairo 2 [[Some 0; Some 0]; [Some 1; Some 1]]
         [(0, 0); (0, 1); (1, 0); (1, 1)]%nat None) [0] = Ok (b1, s1) /\
    cancel_last_remove b1 = Ok b2 /\
    last_removed b2 = Some (0%nat, 0%nat, Some 0) /\
    cancel_last_remove b2 = Ok b3 /\
    last_removed b3 = Some (0%nat, 0%nat, Some 0) /\
    filled_squares b3 = [(0, 1); (1, 0); (1, 1); (0, 0); (0, 0)]%nat.
Proof. eexists _, _, _, _. split_and!; reflexivity. Qed.

(** * Further properties of the code *)

(** ** The solution callback *)

(** X1. Whatever [max_solutions_until_stop] the callback is built with, it
    stores the first two assignments the solver reports, in order, and
    asks to stop at the second: the threshold it compares the count to is
    the literal 2. *)
Theorem callback_stops_at_two (var_grid : VarGrid) (max_solutions : Z)
    (found : list (list Z)) :
  let r := drive found (VarArraySolutions_init var_grid max_solutions) in
  solutions r.1 = map (raw_solution var_grid) (take 2 found) /\
  _solution_count r.1 = Z.of_nat (Nat.min 2 (length found)) /\
  r.2 = bool_decide (2 <= length found)%nat /\
  max_solutions_until_stop r.1 = max_solutions.
Proof.
  destruct found as [|a [|a' found]]; simpl; split_and!; reflexivity.
Qed.

(** ** What the grid operations can raise *)

Lemma bind_Raise {A B : Type} (m : Res A) (f : A -> Res B) (e : PyError) :
  m ≫= f = Raise e -> m = Raise e \/ exists x, m = Ok x /\ f x = Raise e.
Proof.
  destruct m as [a|e']; simpl; intros H; [right; eauto | left; congruence].
Qed.

Lemma py_index_Raise {A : Type} (l : list A) (k : nat) (e : PyError) :
  py_index l k = Raise e -> e = IndexError.
Proof. unfold py_index. destruct (l !! k); congruence. Qed.

Lemma py_setitem_Raise {A : Type} (l : list A) (k : nat) (x : A) (e : PyError) :
  py_setitem l k x = Raise e -> e = IndexError.
Proof. unfold py_setitem. case_bool_decide; congruence. Qed.

Lemma py_pop_Raise {A : Type} (l : list A) (k : nat) (e : PyError) :
  py_pop l k = Raise e -> e = IndexError.
Proof. unfold py_pop. case_bool_decide; congruence. Qed.

Lemma grid_get_Raise (g : Grid) (i j : nat) (e : PyError) :
  grid_get g i j = Raise e -> e = IndexError.
Proof.
  unfold grid_get. intros [H|(row & _ & H)]%bind_Raise;
    by apply py_index_Raise in H.
Qed.

Lemma grid_set_Raise (g : Grid) (i j : nat) (v : Cell) (e : PyError) :
  grid_set g i j v = Raise e -> e = IndexError.
Proof.
  unfold grid_set. intros [H|(row & _ & H)]%bind_Raise;
    [by apply py_index_Raise in H|].
  apply bind_Raise in H as [H|(row' & _ & H)];
    by apply py_setitem_Raise in H.
Qed.

Section RemovalSpec.

Context {Rng : Type}.
Variable next_draw : Rng -> Z * Rng.

Lemma remove_random_square_Raise (b : Binairo) (s : Rng) (e : PyError) :
  remove_random_square next_draw b s = Raise e ->
  (e = AssertionError /\ filled_squares b = []) \/ e = IndexError.
Proof.
  unfold remove_random_square. case_bool_decide as Hlen.
  - destruct (randint next_draw 0 _ s) as [r s']. intros H. right.
    apply bind_Raise in H as [H|([i j] & _ & H)];
      [by apply py_index_Raise in H|].
    apply bind_Raise in H as [H|(c & _ & H)];
      [by apply grid_get_Raise in H|].
    apply bind_Raise in H as [H|(g' & _ & H)];
      [by apply grid_set_Raise in H|].
    apply bind_Raise in H as [H|(f' & _ & H)];
      [by apply py_pop_Raise in H | done].
  - intros [= <-]. left. split; [done|].
    destruct (filled_squares b); [done | simpl in Hlen; lia].
Qed.

(** X2. [remove_random_square] raises [AssertionError] exactly when no
    square is listed. When it succeeds it has picked one listed square,
    emptied its cell, taken that entry out of [filled_squares] (one entry
    fewer), and recorded the square with the value its cell had; on a
    grid built without an initial grid (and changed by removals and undos
    only) every other cell is left as it was. *)
Theorem remove_random_square_spec :
  (forall b s, filled_squares b = [] ->
               remove_random_square next_draw b s = Raise AssertionError) /\
  (forall b s, remove_random_square next_draw b s = Raise AssertionError ->
               filled_squares b = []) /\
  (forall b s b1 s1,
      remove_random_square next_draw b s = Ok (b1, s1) ->
      exists k i j c,
        filled_squares b !! k = Some (i, j) /\
        grid_get (grid b) i j = Ok c /\
        grid_get (grid b1) i j = Ok None /\
        filled_squares b1 = delete k (filled_squares b) /\
        S (length (filled_squares b1)) = length (filled_squares b) /\
        last_removed b1 = Some (i, j, c) /\
        size b1 = size b /\
        (tracked next_draw b ->
         forall i' j', (i', j') ≠ (i, j) ->
                       grid_get (grid b1) i' j' = grid_get (grid b) i' j')).
Proof.
  split_and!.
  - intros b s Hnil. unfold remove_random_square. by rewrite Hnil.
  - intros b s [[_ Hnil]|[=]]%remove_random_square_Raise. exact Hnil.
  - intros b s b1 s1
      (k & i & j & row & c & Hk & Hrow & Hcell & ->)%remove_random_square_inv.
    assert (j < length row)%nat as Hj by (by eapply lookup_lt_Some).
    exists k, i, j, c. simpl. split_and!; try done.
    + apply grid_get_Ok. eauto.
    + by apply grid_get_set_same.
    + rewrite length_delete by (by eexists).
      apply lookup_lt_Some in Hk. lia.
    + intros _ i' j' Hne. by apply grid_get_set_other.
Qed.

End RemovalSpec.

(** ** What the model means *)

Lemma eval_foldl_LAdd (a : list Z) (l : list LinearExpr) (e : LinearExpr) :
  eval a (foldl LAdd e l) = eval a e + line_total (map (eval a) l).
Proof.
  revert e. induction l as [|x l IH]; intros e; simpl; [lia|].
  rewrite IH. simpl. lia.
Qed.

Lemma eval_py_sum (a : list Z) (l : list LinearExpr) :
  eval a (py_sum l) = line_total (map (eval a) l).
Proof. unfold py_sum. by rewrite eval_foldl_LAdd. Qed.

Lemma in_domains_01 (a : list Z) (k : nat) :
  in_domains a (replicate k (0, 1)) = true <->
  length a = k /\ Forall (fun x => 0 <= x <= 1) a.
Proof.
  revert k. induction a as [|x a IH]; intros [|k]; simpl.
  - split; [by split | done].
  - split; [done | by intros [? _]].
  - split; [done | by intros [? _]].
  - rewrite !andb_true_iff, IH, Forall_cons, Z.leb_le, Z.leb_le.
    split; [intros [[??] [??]] | intros [[=] [[??] ?]]];
      split_and!; try done; lia.
Qed.

Lemma elem_of_constraints_of (n : Z) (g : Grid) (c : BoundedLinearExpression) :
  c ∈ constraints_of n g <->
  (exists i j value,
      (i < Z.to_nat n)%nat /\ (j < Z.to_nat n)%nat /\
      grid_get g i j = Ok (Some value) /\
      c = ExprEq (LVar (cell_var n i j)) value) \/
  (exists i j,
      (i < Z.to_nat n)%nat /\ (j + 2 < Z.to_nat n)%nat /\
      (c = ExprGt (py_sum (row_window n i j)) 0 \/
       c = ExprLt (py_sum (row_window n i j)) 3 \/
       c = ExprGt (py_sum (col_window n i j)) 0 \/
       c = ExprLt (py_sum (col_window n i j)) 3)) \/
  (exists i, (i < Z.to_nat n)%nat /\
             c = ExprEq (py_sum (row_vars n i)) (n / 2)) \/
  (exists j, (j < Z.to_nat n)%nat /\
             c = ExprEq (py_sum (col_vars n j)) (n / 2)).
Proof.
  unfold constraints_of.
  rewrite !elem_of_app, elem_of_fixed, elem_of_c1.
  by rewrite (elem_of_lines n (row_vars n)), (elem_of_lines n (col_vars n)).
Qed.

Lemma eval_row_window (n : Z) (a : list Z) (i j : nat) :
  eval a (py_sum (row_window n i j)) =
    cell_value n a i j + cell_value n a i (j + 1) + cell_value n a i (j + 2).
Proof. unfold py_sum, row_window, cell_value. simpl. lia. Qed.

Lemma eval_col_window (n : Z) (a : list Z) (i j : nat) :
  eval a (py_sum (col_window n i j)) =
    cell_value n a j i + cell_value n a (j + 1) i + cell_value n a (j + 2) i.
Proof. unfold py_sum, col_window, cell_value. simpl. lia. Qed.

Lemma eval_row_vars (n : Z) (a : list Z) (i : nat) :
  eval a (py_sum (row_vars n i)) =
    line_total (map (cell_value n a i) (range n)).
Proof. rewrite eval_py_sum. unfold row_vars. by rewrite map_map. Qed.

Lemma eval_col_vars (n : Z) (a : list Z) (j : nat) :
  eval a (py_sum (col_vars n j)) =
    line_total (map (fun i => cell_value n a i j) (range n)).
Proof. rewrite eval_py_sum. unfold col_vars. by rewrite map_map. Qed.

Lemma feasible_model_of (n : Z) (g : Grid) (a : list Z) :
  feasible (model_of n g) a = true <-> solves n g a.
Proof.
  unfold feasible, solves. simpl.
  rewrite andb_true_iff, in_domains_01, forallb_forall. split.
  - intros [[Hlen Hdom] Hcs].
    assert (forall c, c ∈ constraints_of n g -> holds a c = true) as Hc
      by (intros c Hin; by apply Hcs, list_elem_of_In).
    split_and!; try done.
    + intros i j value Hi Hj Hv.
      specialize (Hc (ExprEq (LVar (cell_var n i j)) value)).
      apply Z.eqb_eq, Hc, elem_of_constraints_of. left. by exists i, j, value.
    + intros i j Hi Hj. rewrite <- eval_row_window. split.
      * apply Z.ltb_lt.
        apply (Hc (ExprGt (py_sum (row_window n i j)) 0)).
        apply elem_of_constraints_of. right; left. exists i, j. auto.
      * apply Z.ltb_lt.
        apply (Hc (ExprLt (py_sum (row_window n i j)) 3)).
        apply elem_of_constraints_of. right; left. exists i, j. auto.
    + intros i j Hi Hj. rewrite <- eval_col_window. split.
      * apply Z.ltb_lt.
        apply (Hc (ExprGt (py_sum (col_window n i j)) 0)).
        apply elem_of_constraints_of. right; left. exists i, j. auto 6.
      * apply Z.ltb_lt.
        apply (Hc (ExprLt (py_sum (col_window n i j)) 3)).
        apply elem_of_constraints_of. right; left. exists i, j. auto 6.
    + intros i Hi. rewrite <- eval_row_vars.
      apply Z.eqb_eq.
      apply (Hc (ExprEq (py_sum (row_vars n i)) (n / 2))).
      apply elem_of_constraints_of. right; right; left. by exists i.
    + intros j Hj. rewrite <- eval_col_vars.
      apply Z.eqb_eq.
      apply (Hc (ExprEq (py_sum (col_vars n j)) (n / 2))).
      apply elem_of_constraints_of. do 3 right. by exists j.
  - intros (Hlen & Hdom & Hfix & Hrow & Hcol & Hrs & Hcs).
    split; [done|].
    intros c Hin%list_elem_of_In%elem_of_constraints_of.
    destruct Hin as [(i & j & value & Hi & Hj & Hv & ->)
                    |[(i & j & Hi & Hj & Hc)
                    |[(i & Hi & ->)|(j & Hj & ->)]]]; unfold holds.
    + apply Z.eqb_eq. by apply Hfix.
    + specialize (Hrow i j Hi Hj). specialize (Hcol i j Hi Hj).
      destruct Hc as [-> | [-> | [-> | ->]]];
        rewrite ?eval_row_window, ?eval_col_window; apply Z.ltb_lt; lia.
    + apply Z.eqb_eq. rewrite eval_row_vars. by apply Hrs.
    + apply Z.eqb_eq. rewrite eval_col_vars. by apply Hcs.
Qed.

(** X3. The model built from a [size] by [size] grid encodes the rules on
    the cells: an assignment is feasible for it exactly when it gives
    every one of the [size * size] cells a value of 0..1, carries the
    value of every non-empty cell of the grid, has in no row and no column
    three consecutive cells summing to 0 or to 3, and sums to [size // 2]
    on every row and every column. *)
Theorem model_encodes_rules (n : Z) (b : Binairo) :
  square_grid n (grid b) ->
  exists var_grid m,
    build_model n b = Ok (var_grid, m) /\
    forall a, feasible m a = true <-> solves n (grid b) a.
Proof.
  intros Hsq. exists (var_grid_of n), (model_of n (grid b)).
  split; [by apply build_model_Ok|].
  intros a. apply feasible_model_of.
Qed.

(** ** The grid the generator starts from *)

Lemma line_total_const {A : Type} (f : A -> Z) (l : list A) (v : Z) :
  (forall x, x ∈ l -> f x = v) ->
  line_total (map f l) = Z.of_nat (length l) * v.
Proof.
  induction l as [|x l IH]; intros Hf; [simpl; lia|].
  cbn [map line_total foldr length]. rewrite (Hf x) by left.
  fold (line_total (map f l)). rewrite IH by (intros; apply Hf; by right).
  lia.
Qed.

Section StartGrid.

Context {Rng : Type}.
Variable next_draw : Rng -> Z * Rng.
Variable search : CpModel -> list (list Z).

(** A row that repeats one value cannot sum to half its length. *)
Lemma random_grid_unsolvable (n : Z) (s : Rng) (a : list Z) :
  2 <= n -> ~ solves n (_generate_random_grid next_draw n s).1 a.
Proof.
  intros Hn (_ & _ & Hfix & _ & _ & Hrows & _).
  pose proof (random_rows_constant next_draw n (range n) s) as Hconst.
  pose proof (random_rows_length next_draw n (range n) s) as Hlen.
  unfold _generate_random_grid in Hfix.
  set (g := (random_rows next_draw n (range n) s).1) in *.
  unfold range in Hlen. rewrite length_seq in Hlen.
  destruct (lookup_lt_is_Some_2 g 0) as [row Hrow]; [lia|].
  rewrite Forall_forall in Hconst.
  destruct (Hconst row) as (v & Hv & ->); [by eapply list_elem_of_lookup_2|].
  assert (forall j, j ∈ range n -> cell_value n a 0 j = v) as Hcells.
  { intros j Hj%elem_of_range. apply Hfix; [lia | done |].
    apply grid_get_Ok. exists (py_repeat (Some v) n). split; [done|].
    by apply lookup_replicate_2. }
  specialize (Hrows 0%nat ltac:(lia)).
  rewrite (line_total_const _ _ v Hcells) in Hrows.
  unfold range in Hrows. rewrite length_seq, Z2Nat.id in Hrows by lia.
  Z.to_euclidean_division_equations. lia.
Qed.

(** X4. For every size of 2 or more, the grid that the constructor fills
    at random admits no solution: each of its rows repeats one value and
    cannot sum to [size // 2]. With a solver that only returns feasible
    assignments, the first enumeration of [generate_binairo] is therefore
    empty and the removal loop is always entered. *)
Theorem start_grid_has_no_solution (n : Z) (s : Rng) :
  2 <= n -> sound_solver search ->
  exists b s',
    Binairo_init next_draw n None s = Ok (b, s') /\
    (forall a, ~ solves n (grid b) a) /\
    _get_valid_solutions search n b = Ok [].
Proof.
  intros Hn Hsound. unfold Binairo_init.
  pose proof (random_grid_dense next_draw n s) as Hd.
  pose proof (fun a => random_grid_unsolvable n s a Hn) as Hno.
  destruct (_generate_random_grid next_draw n s) as [g s2]. simpl in *.
  eexists _, _. split_and!; [reflexivity | exact Hno |].
  rewrite get_valid_solutions_Ok by (by apply dense_square_grid). simpl.
  destruct (Hsound (model_of n g)) as [_ Hfeas].
  destruct (search (model_of n g)) as [|a found]; [done|].
  exfalso. apply (Hno a), feasible_model_of, Hfeas. by left.
Qed.

End StartGrid.

Lemma start_grid_has_no_solution_witness :
  exists b s',
    Binairo_init scripted 2 None [0; 1] = Ok (b, s') /\
    (forall a, ~ solves 2 (grid b) a) /\
    _get_valid_solutions brute_search 2 b = Ok [].
Proof.
  apply (start_grid_has_no_solution scripted brute_search 2 [0; 1]).
  - lia.
  - exact brute_search_sound.
Defined.

(** ** The boards that [_solve] rebuilds *)

Lemma dict_values_var_grid_of (n : Z) :
  dict_values (var_grid_of n) = seq 0 (Z.to_nat n * Z.to_nat n).
Proof.
  unfold dict_values, var_grid_of. unfold range at 2.
  assert (forall len a,
             map snd (flat_map (fun i => map (fun j => (i, j, cell_var n i j))
                                           (range n)) (seq a len)) =
             seq (a * Z.to_nat n) (len * Z.to_nat n)) as H.
  { induction len as [|len IH]; intros a; simpl; [done|].
    rewrite map_app, map_map, IH, seq_app. simpl. f_equal; [|f_equal; lia].
    unfold cell_var, range.
    pose proof (fmap_add_seq (a * Z.to_nat n) 0 (Z.to_nat n)) as Hs.
    rewrite Nat.add_0_r in Hs. exact Hs. }
  apply (H (Z.to_nat n) 0%nat).
Qed.

Lemma nth_map_seq {A : Type} (f : nat -> A) (len i : nat) (d : A) :
  (i < len)%nat -> nth i (map f (seq 0 len)) d = f i.
Proof.
  intros Hi. apply nth_lookup_Some.
  change (map f (seq 0 len)) with (f <$> seq 0 len).
  by rewrite list_lookup_fmap, lookup_seq_lt.
Qed.

Lemma clean_solution_cell (n : Z) (a : list Z) (i j : nat) :
  (i < Z.to_nat n)%nat -> (j < Z.to_nat n)%nat ->
  nth i (nth j (clean_solution n (raw_solution (var_grid_of n) a)) []) 0 =
    Value a (i + j).
Proof.
  intros Hi Hj. unfold clean_solution, range.
  rewrite (nth_map_seq _ _ j) by done. rewrite (nth_map_seq _ _ i) by done.
  unfold raw_solution. rewrite dict_values_var_grid_of.
  apply nth_map_seq. nia.
Qed.

Section SolveBoards.

Variable search : CpModel -> list (list Z).

(** X5. Each board that [_solve] returns comes, in order, from one of the
    first two assignments of the solver, and its cell [i] of row [j] holds
    the value of the variable number [i + j], not of the variable
    [j * size + i] of that cell: row [j] is the run of [size] values that
    starts at variable [j], and every board equals its transpose. *)
Theorem solve_reads_variable_i_plus_j (n : Z) (m : CpModel) :
  exists sols,
    _solve search n (var_grid_of n) m = Ok sols /\
    Forall2 (fun a board =>
               forall i j, (i < Z.to_nat n)%nat -> (j < Z.to_nat n)%nat ->
                           nth i (nth j board []) 0 = Value a (i + j))
      (take 2 (search m)) sols /\
    Forall (fun board =>
              forall i j, (i < Z.to_nat n)%nat -> (j < Z.to_nat n)%nat ->
                          nth i (nth j board []) 0 = nth j (nth i board []) 0)
      sols.
Proof.
  eexists. split; [apply solve_Ok|]. split.
  - apply Forall2_fmap_r, Forall_Forall2_diag, Forall_forall.
    intros a _ i j Hi Hj. by apply clean_solution_cell.
  - apply Forall_forall. intros board (a & -> & _)%list_elem_of_fmap i j Hi Hj.
    rewrite !clean_solution_cell by done. f_equal. lia.
Qed.

End SolveBoards.

(** ** Grids with cells emptied *)

Lemma blanked_refl (g : Grid) : blanked g g.
Proof.
  apply Forall_Forall2_diag, Forall_forall. intros row _.
  apply Forall_Forall2_diag, Forall_forall. intros c _. by right.
Qed.

Lemma blanked_set_None (g0 g : Grid) (i j : nat) (row : list Cell) :
  blanked g0 g -> g !! i = Some row ->
  blanked g0 (<[i := <[j := None]> row]> g).
Proof.
  intros Hb Hrow. unfold blanked in *.
  destruct (Forall2_lookup_r _ _ _ _ _ Hb Hrow) as (row0 & Hrow0 & Hrows).
  rewrite <- (list_insert_id g0 i row0 Hrow0).
  apply Forall2_insert; [done|].
  destruct (row0 !! j) as [c0|] eqn:Hc0.
  - rewrite <- (list_insert_id row0 j c0 Hc0).
    apply Forall2_insert; [done | by left].
  - apply lookup_ge_None in Hc0.
    rewrite list_insert_ge; [done|].
    by rewrite <- (Forall2_length _ _ _ Hrows).
Qed.

Lemma blanked_cell (g0 g : Grid) (i j : nat) (v : Z) :
  blanked g0 g -> grid_get g i j = Ok (Some v) ->
  grid_get g0 i j = Ok (Some v).
Proof.
  intros Hb (row & Hrow & Hc)%grid_get_Ok.
  destruct (Forall2_lookup_r _ _ _ _ _ Hb Hrow) as (row0 & Hrow0 & Hrows).
  destruct (Forall2_lookup_r _ _ _ _ _ Hrows Hc) as (c0 & Hc0 & [[=]|<-]).
  apply grid_get_Ok. eauto.
Qed.

Lemma blanked_square_grid (n : Z) (g0 g : Grid) :
  square_grid n g0 -> blanked g0 g -> square_grid n g.
Proof.
  intros [Hlen Hrows] Hb. split.
  - by rewrite <- (Forall2_length _ _ _ Hb).
  - apply Forall_forall. intros row (i & Hrow)%list_elem_of_lookup_1.
    destruct (Forall2_lookup_r _ _ _ _ _ Hb Hrow) as (row0 & Hrow0 & Hr).
    rewrite <- (Forall2_length _ _ _ Hr).
    rewrite Forall_forall in Hrows. apply Hrows.
    by eapply list_elem_of_lookup_2.
Qed.

Lemma filled_exact_squares_in_grid (b : Binairo) :
  filled_exact b -> squares_in_grid b.
Proof.
  intros [_ Hiff]. apply Forall_forall. intros [i j] Hin.
  apply Hiff in Hin as [v Hv]. simpl. eauto.
Qed.

Lemma filled_exact_remove (b : Binairo) (k i j : nat) (row : list Cell)
    (c : Cell) (lr : option (nat * nat * Cell)) :
  filled_exact b ->
  filled_squares b !! k = Some (i, j) ->
  grid b !! i = Some row -> row !! j = Some c ->
  filled_exact (mkBinairo (size b) (<[i := <[j := None]> row]> (grid b))
                  (delete k (filled_squares b)) lr).
Proof.
  intros [Hnd Hiff] Hk Hrow Hcell.
  pose proof (delete_Permutation _ _ _ Hk) as Hp.
  set (d := delete k (filled_squares b)) in *.
  rewrite Hp in Hnd. apply NoDup_cons in Hnd as [Hnotin Hnd'].
  split; simpl; [done|].
  intros i' j'. destruct (decide ((i', j') = (i, j))) as [[= -> ->]|Hne].
  - split; [done|]. intros [v Hv].
    rewrite grid_get_set_same in Hv
      by (done || (apply lookup_lt_is_Some_1; by eexists)).
    discriminate.
  - rewrite (grid_get_set_other _ i j i' j' row None Hrow Hne).
    rewrite <- Hiff, Hp, elem_of_cons.
    split; [by right | by intros [?|?]].
Qed.

Lemma filled_exact_reorder (b : Binairo) (k : nat) (sq : Square)
    (lr : option (nat * nat * Cell)) :
  filled_exact b -> filled_squares b !! k = Some sq ->
  filled_exact (mkBinairo (size b) (grid b)
                  (delete k (filled_squares b) ++ [sq]) lr).
Proof.
  intros [Hnd Hiff] Hk.
  assert (delete k (filled_squares b) ++ [sq] ≡ₚ filled_squares b) as Hp.
  { rewrite (delete_Permutation _ _ _ Hk) at 2.
    by rewrite Permutation_app_comm. }
  split; simpl.
  - by rewrite Hp.
  - intros i' j'. by rewrite Hp.
Qed.

(** ** What the removal loop keeps *)

Section LoopInvariant.

Context {Rng : Type}.
Variable next_draw : Rng -> Z * Rng.
Variable search : CpModel -> list (list Z).

Lemma removal_loop_invariant (n : Z) (g0 : Grid) (fuel : nat) :
  square_grid n g0 ->
  forall (b : Binairo) (sols : list (list (list Z))) (s : Rng),
    loop_invariant n g0 b ->
    removal_loop next_draw search fuel n b sols s = None \/
    removal_loop next_draw search fuel n b sols s =
      Some (Raise AssertionError) \/
    exists b' sols' s',
      removal_loop next_draw search fuel n b sols s =
        Some (Ok (b', sols', s')) /\
      loop_invariant n g0 b' /\ sols' ≠ [].
Proof.
  intros Hsq0.
  induction fuel as [|fuel IH]; intros b sols s Hinv; simpl.
  - case_bool_decide as Hlen; [by left|].
    right; right. exists b, sols, s. split_and!; [done | done |].
    by intros ->.
  - case_bool_decide as Hlen.
    2:{ right; right. exists b, sols, s. split_and!; [done | done |].
        by intros ->. }
    destruct Hinv as (Hsize & Hblank & Hexact).
    destruct (decide (filled_squares b = [])) as [Hnil|Hne].
    { right; left. unfold remove_random_square. by rewrite Hnil. }
    destruct (remove_random_square_succeeds next_draw b s Hne
                (filled_exact_squares_in_grid b Hexact)) as (b1 & s1 & Hrem).
    rewrite Hrem.
    pose proof (cancel_after_remove next_draw _ _ _ _ Hrem)
      as (k' & i' & j' & c' & Hk' & _ & _ & Hcancel).
    apply remove_random_square_inv in Hrem
      as (k & i & j & row & c & Hk & Hrow & Hcell & ->).
    assert (loop_invariant n g0
              (mkBinairo (size b) (<[i := <[j := None]> row]> (grid b))
                 (delete k (filled_squares b)) (Some (i, j, c)))) as Hinv1.
    { split_and!; simpl; [done | by apply blanked_set_None |].
      by apply (filled_exact_remove b k i j row c). }
    rewrite get_valid_solutions_Ok
      by (apply (blanked_square_grid n g0); [done | apply Hinv1]).
    case_bool_decide as Hmany.
    + rewrite Hcancel. apply IH. split_and!; simpl; [done | done |].
      by apply filled_exact_reorder.
    + by apply IH.
Qed.

Lemma generate_loop_invariant (fuel : nat) (n : Z) (s : Rng) :
  exists b0 s0,
    Binairo_init next_draw n None s = Ok (b0, s0) /\
    dense_square n (grid b0) /\
    (generate_loop next_draw search fuel n s = None \/
     generate_loop next_draw search fuel n s = Some (Raise AssertionError) \/
     exists b sols s',
       generate_loop next_draw search fuel n s = Some (Ok (b, sols, s')) /\
       loop_invariant n (grid b0) b /\ sols ≠ []).
Proof.
  unfold generate_loop, Binairo_init.
  pose proof (random_grid_dense next_draw n s) as Hd.
  destruct (_generate_random_grid next_draw n s) as [g s2]. simpl in Hd.
  eexists _, _. split_and!; [reflexivity | exact Hd |]. simpl.
  rewrite get_valid_solutions_Ok by (by apply dense_square_grid).
  apply removal_loop_invariant; [by apply dense_square_grid|].
  split_and!; simpl; [done | apply blanked_refl |].
  by apply dense_filled_exact.
Qed.

(** X6. Whatever the solver and the random draws, [generate_binairo]
    raises no [IndexError], [KeyError] or [TypeError]: a run either is
    still in its loop, or returns a puzzle and a solution, or stops on the
    assertion of [remove_random_square] with every cell removed. *)
Theorem generate_binairo_raises_only_assertion (fuel : nat) (n : Z) (s : Rng) :
  generate_binairo next_draw search fuel n s = None \/
  generate_binairo next_draw search fuel n s = Some (Raise AssertionError) \/
  exists b sol,
    generate_binairo next_draw search fuel n s = Some (Ok (b, sol)).
Proof.
  unfold generate_binairo.
  destruct (generate_loop_invariant fuel n s)
    as (b0 & s0 & _ & _ & [-> | [-> | (b & sols & s' & -> & _ & Hne)]]).
  - by left.
  - right; by left.
  - right; right. destruct sols as [|sol sols]; [done|].
    by exists b, sol.
Qed.

(** X7. The puzzle that [generate_binairo] returns is the grid it started
    from with some cells emptied: it is a [size] by [size] grid, each of
    its non-empty cells holds the value the start grid had there, and its
    [filled_squares] lists, without repetition, exactly its non-empty
    cells. *)
Theorem generated_puzzle_is_blanked_start_grid (fuel : nat) (n : Z) (s : Rng)
    (b : Binairo) (sol : list (list Z)) :
  generate_binairo next_draw search fuel n s = Some (Ok (b, sol)) ->
  exists b0 s0,
    Binairo_init next_draw n None s = Ok (b0, s0) /\
    size b = n /\ square_grid n (grid b) /\
    blanked (grid b0) (grid b) /\
    (forall i j v, grid_get (grid b) i j = Ok (Some v) ->
                   grid_get (grid b0) i j = Ok (Some v)) /\
    filled_exact b.
Proof.
  unfold generate_binairo. intros Hgen.
  destruct (generate_loop_invariant fuel n s)
    as (b0 & s0 & Hinit & Hd & [Hl | [Hl | (b' & sols & s' & Hl & Hinv & Hne)]]);
    rewrite Hl in Hgen; try done.
  destruct sols as [|sol' sols]; [done|]. simpl in Hgen.
  injection Hgen as <- <-. destruct Hinv as (Hsize & Hblank & Hexact).
  exists b0, s0. split_and!; try done.
  - apply (blanked_square_grid n (grid b0)); [|done].
    by apply dense_square_grid.
  - intros i j v. by apply blanked_cell.
Qed.

(** X8. In every puzzle that [generate_binairo] returns, the non-empty
    cells of a row all hold the same value: the start grid repeats one
    draw along each row and the loop only empties cells. *)
Theorem generated_puzzle_rows_hold_one_value (fuel : nat) (n : Z) (s : Rng)
    (b : Binairo) (sol : list (list Z)) :
  generate_binairo next_draw search fuel n s = Some (Ok (b, sol)) ->
  Forall (fun row => exists w, (w = 0 \/ w = 1) /\
                               Forall (fun c => c = None \/ c = Some w) row)
    (grid b).
Proof.
  unfold generate_binairo. intros Hgen.
  destruct (generate_loop_invariant fuel n s)
    as (b0 & s0 & Hinit & _ & [Hl | [Hl | (b' & sols & s' & Hl & Hinv & Hne)]]);
    rewrite Hl in Hgen; try done.
  destruct sols as [|sol' sols]; [done|]. simpl in Hgen.
  injection Hgen as <- <-. destruct Hinv as (_ & Hblank & _).
  unfold Binairo_init, _generate_random_grid in Hinit.
  pose proof (random_rows_constant next_draw n (range n) s) as Hconst.
  destruct (random_rows next_draw n (range n) s) as [g s2].
  injection Hinit as <- _. simpl in *.
  rewrite Forall_forall in Hconst.
  apply Forall_forall. intros row (i & Hrow)%list_elem_of_lookup_1.
  destruct (Forall2_lookup_r _ _ _ _ _ Hblank Hrow) as (row0 & Hrow0 & Hrows).
  destruct (Hconst row0) as (w & Hw & ->); [by eapply list_elem_of_lookup_2|].
  exists w. split; [done|].
  apply Forall_forall. intros c (j & Hc)%list_elem_of_lookup_1.
  destruct (Forall2_lookup_r _ _ _ _ _ Hrows Hc) as (c0 & Hc0 & Hcc).
  apply list_elem_of_lookup_2, elem_of_replicate_inv in Hc0 as ->. exact Hcc.
Qed.

End LoopInvariant.

Lemma generated_puzzle_is_blanked_start_grid_witness :
  exists b0 s0,
    Binairo_init scripted 2 None [0; 0; 1; 1] = Ok (b0, s0) /\
    2 = 2 /\ square_grid 2 [[Some 0; None]; [None; Some 0]] /\
    blanked (grid b0) [[Some 0; None]; [None; Some 0]] /\
    (forall i j v,
        grid_get [[Some 0; None]; [None; Some 0]] i j = Ok (Some v) ->
        grid_get (grid b0) i j = Ok (Some v)) /\
    filled_exact
      (mkBinairo 2 [[Some 0; None]; [None; Some 0]]
         [(0, 0); (1, 1)]%nat (Some (1%nat, 0%nat, Some 0))).
Proof.
  apply (generated_puzzle_is_blanked_start_grid scripted brute_search 2 2
           [0; 0; 1; 1]
           (mkBinairo 2 [[Some 0; None]; [None; Some 0]]
              [(0, 0); (1, 1)]%nat (Some (1%nat, 0%nat, Some 0)))
           [[0; 1]; [1; 1]]).
  vm_compute. reflexivity.
Defined.

Lemma generated_puzzle_rows_hold_one_value_witness :
  Forall (fun row => exists w, (w = 0 \/ w = 1) /\
                               Forall (fun c => c = None \/ c = Some w) row)
    [[Some 0; None]; [None; Some 0]].
Proof.
  apply (generated_puzzle_rows_hold_one_value scripted brute_search 2 2
           [0; 0; 1; 1]
           (mkBinairo 2 [[Some 0; None]; [None; Some 0]]
              [(0, 0); (1, 1)]%nat (Some (1%nat, 0%nat, Some 0)))
           [[0; 1]; [1; 1]]).
  vm_compute. reflexivity.
Defined.

(** ** Sizes without cells *)

Lemma NoDup_all_same {A : Type} (l : list A) (d : A) :
  NoDup l -> (forall x, x ∈ l -> x = d) -> d ∈ l -> l = [d].
Proof.
  intros Hnd Hall Hin. destruct l as [|x [|y l]].
  - by inversion Hin.
  - by rewrite (Hall x) by left.
  - exfalso. apply NoDup_cons in Hnd as [Hnotin _]. apply Hnotin.
    rewrite (Hall x) by left. rewrite (Hall y) by (right; left). by left.
Qed.

Lemma removal_loop_done {Rng : Type} (next_draw : Rng -> Z * Rng)
    (search : CpModel -> list (list Z)) (fuel : nat) (n : Z) (b : Binairo)
    (sols : list (list (list Z))) (s : Rng) :
  sols ≠ [] ->
  removal_loop next_draw search fuel n b sols s = Some (Ok (b, sols, s)).
Proof.
  intros Hne. destruct fuel; simpl.
  - rewrite bool_decide_eq_false_2; [done|]. by destruct sols.
  - rewrite bool_decide_eq_false_2; [done|]. by destruct sols.
Qed.

Section NoCells.

Context {Rng : Type}.
Variable next_draw : Rng -> Z * Rng.
Variable search : CpModel -> list (list Z).

(** X9. With a size of zero or less there is no cell: for a solver that
    returns exactly the feasible assignments, each once,
    [generate_binairo] does not fail and does not loop; it returns at once
    the empty grid and the empty board. *)
Theorem generate_binairo_without_cells (fuel : nat) (n : Z) (s : Rng) :
  n <= 0 -> sound_solver search -> complete_solver search ->
  generate_binairo next_draw search fuel n s =
    Some (Ok (mkBinairo n [] [] None, [])).
Proof.
  intros Hn Hsound Hcomplete.
  assert (Z.to_nat n = 0%nat) as Hz by lia.
  assert (range n = []) as Hrange by (unfold range; by rewrite Hz).
  assert (model_of n [] = mkCpModel [] []) as Hmodel.
  { unfold model_of, constraints_of. by rewrite Hrange, Hz. }
  assert (search (mkCpModel [] []) = [[]]) as Hsearch.
  { destruct (Hsound (mkCpModel [] [])) as [Hnd Hfeas].
    apply NoDup_all_same; [done | |].
    - intros a Ha%Hfeas. unfold feasible in Ha. simpl in Ha.
      apply andb_true_iff in Ha as [Ha _]. by destruct a.
    - by apply Hcomplete. }
  unfold generate_binairo, generate_loop, Binairo_init, _generate_random_grid.
  rewrite Hrange. simpl.
  rewrite get_valid_solutions_Ok by (split; [by rewrite Hz | constructor]).
  simpl. rewrite Hmodel, Hsearch. simpl.
  unfold clean_solution. rewrite Hrange. simpl.
  by rewrite removal_loop_done.
Qed.

End NoCells.

Lemma generate_binairo_without_cells_witness :
  generate_binairo scripted brute_search 0 (-3) [] =
    Some (Ok (mkBinairo (-3) [] [] None, [])).
Proof.
  apply (generate_binairo_without_cells scripted brute_search 0 (-3) []).
  - lia.
  - exact brute_search_sound.
  - exact brute_search_complete.
Defined.

(** ** The text of a grid *)

Lemma for_each_appends {A B : Type} (l : list A)
    (body : A -> list B -> Res (list B)) (g : A -> list B) (st : list B) :
  (forall x st', x ∈ l -> body x st' = Ok (st' ++ g x)) ->
  for_each l body st = Ok (st ++ concat (map g l)).
Proof.
  revert st. induction l as [|x l IH]; intros st Hbody; simpl.
  - by rewrite app_nil_r.
  - rewrite Hbody by left. simpl.
    rewrite IH by (intros; apply Hbody; by right).
    by rewrite app_assoc.
Qed.

Lemma for_each_Ok_body {A S : Type} (l : list A) (body : A -> S -> Res S)
    (st st' : S) (x : A) :
  for_each l body st = Ok st' -> x ∈ l ->
  exists st1 st2, body x st1 = Ok st2.
Proof.
  revert st. induction l as [|y l IH]; intros st Hfor Hin;
    [by inversion Hin|].
  simpl in Hfor. apply bind_Ok in Hfor as (st1 & Hy & Hrest).
  apply elem_of_cons in Hin as [->|Hin]; [eauto | by eapply IH].
Qed.

Lemma for_each_Raise_body {A S : Type} (l : list A) (body : A -> S -> Res S)
    (st : S) (e : PyError) :
  for_each l body st = Raise e ->
  exists x st1, x ∈ l /\ body x st1 = Raise e.
Proof.
  revert st. induction l as [|y l IH]; intros st Hfor; [done|].
  simpl in Hfor. apply bind_Raise in Hfor as [Hy|(st1 & _ & Hrest)].
  - exists y, st. split; [by left | done].
  - destruct (IH _ Hrest) as (x & st2 & Hin & Hx).
    exists x, st2. split; [by right | done].
Qed.

Lemma lookup_concat_blocks {A : Type} (bs : list (list A)) (len i k : nat) :
  Forall (fun blk => length blk = len) bs -> (k < len)%nat ->
  concat bs !! (i * len + k)%nat = bs !! i ≫= (.!! k).
Proof.
  intros Hbs Hk. revert i. induction Hbs as [|blk bs Hblk _ IH]; intros i.
  - by rewrite !lookup_nil.
  - destruct i as [|i]; simpl.
    + rewrite lookup_app_l by lia. done.
    + rewrite lookup_app_r by lia.
      replace (len + i * len + k - length blk)%nat with (i * len + k)%nat
        by lia.
      apply IH.
Qed.

Lemma length_concat_blocks {A : Type} (bs : list (list A)) (len : nat) :
  Forall (fun blk => length blk = len) bs ->
  length (concat bs) = (length bs * len)%nat.
Proof.
  induction 1 as [|blk bs Hblk _ IH]; simpl; [done|].
  rewrite length_app, IH. lia.
Qed.

Lemma grid_get_grid_cell (g : Grid) (i j : nat) (c : Cell) :
  grid_get g i j = Ok c -> grid_cell g i j = c.
Proof.
  intros (row & Hrow & Hc)%grid_get_Ok. unfold grid_cell.
  rewrite Hrow. simpl. by rewrite Hc.
Qed.

Lemma Binairo_str_Ok (b : Binairo) :
  square_grid (size b) (grid b) -> Binairo_str b = Ok (render_text b).
Proof.
  intros Hsq. unfold Binairo_str, render_text.
  apply (for_each_appends (range (size b)) _ (row_text b)
           (newline_text (size b))).
  intros i st Hi%elem_of_range. fold (newline_text (size b)).
  rewrite (for_each_appends (range (size b)) _
             (fun j => cell_text (grid_cell (grid b) i j) ++ ["|"%char])).
  - simpl. unfold row_text. by rewrite <- !app_assoc.
  - intros j st' Hj%elem_of_range.
    destruct (square_grid_cell _ _ i j Hsq Hi Hj) as (row & c & Hrow & Hc).
    assert (grid_get (grid b) i j = Ok c) as Hget
      by (apply grid_get_Ok; eauto).
    rewrite Hget. simpl. rewrite (grid_get_grid_cell _ _ _ _ Hget).
    by rewrite <- app_assoc.
Qed.

Lemma lookup_map_seq {A : Type} (f : nat -> A) (len i : nat) :
  (i < len)%nat -> map f (seq 0 len) !! i = Some (f i).
Proof.
  intros Hi. change (map f (seq 0 len)) with (f <$> seq 0 len).
  by rewrite list_lookup_fmap, lookup_seq_lt.
Qed.

Lemma length_newline_text (size0 : Z) :
  0 <= size0 -> length (newline_text size0) = (2 * Z.to_nat size0 + 3)%nat.
Proof.
  intros Hs. unfold newline_text, py_repeat.
  rewrite !length_app, length_replicate. simpl. lia.
Qed.

Section RenderFacts.

Variable b : Binairo.
Hypothesis Hsize : 0 <= size b.
Hypothesis Hsq : square_grid (size b) (grid b).
Hypothesis Hone :
  Forall (Forall (fun c => length (cell_text c) = 1%nat)) (grid b).

Lemma cell_text_one (i j : nat) :
  (i < Z.to_nat (size b))%nat -> (j < Z.to_nat (size b))%nat ->
  length (cell_text (grid_cell (grid b) i j)) = 1%nat.
Proof.
  intros Hi Hj.
  destruct (square_grid_cell _ _ i j Hsq Hi Hj) as (row & c & Hrow & Hc).
  unfold grid_cell. rewrite Hrow. simpl. rewrite Hc.
  rewrite Forall_forall in Hone.
  specialize (Hone row (list_elem_of_lookup_2 _ _ _ Hrow)).
  rewrite Forall_forall in Hone.
  exact (Hone c (list_elem_of_lookup_2 _ _ _ Hc)).
Qed.

Lemma row_blocks (i : nat) :
  (i < Z.to_nat (size b))%nat ->
  Forall (fun blk => length blk = 2%nat)
    (map (fun j => cell_text (grid_cell (grid b) i j) ++ ["|"%char])
       (range (size b))).
Proof.
  intros Hi. apply Forall_forall. intros blk Hblk%list_elem_of_In.
  apply in_map_iff in Hblk as (j & <- & Hj%list_elem_of_In%elem_of_range).
  rewrite length_app, cell_text_one by done. done.
Qed.

Lemma length_row_text (i : nat) :
  (i < Z.to_nat (size b))%nat ->
  length (row_text b i) = (4 * Z.to_nat (size b) + 4)%nat.
Proof.
  intros Hi. unfold row_text.
  rewrite !length_app, (length_concat_blocks _ 2 (row_blocks i Hi)).
  rewrite length_map, length_newline_text by done.
  unfold range. rewrite length_seq. simpl. lia.
Qed.

Lemma render_rows :
  Forall (fun blk => length blk = (4 * Z.to_nat (size b) + 4)%nat)
    (map (row_text b) (range (size b))).
Proof.
  apply Forall_forall. intros blk Hblk%list_elem_of_In.
  apply in_map_iff in Hblk as (i & <- & Hi%list_elem_of_In%elem_of_range).
  by apply length_row_text.
Qed.

Lemma length_render_text :
  length (render_text b) =
    (2 * Z.to_nat (size b) + 3 +
     Z.to_nat (size b) * (4 * Z.to_nat (size b) + 4))%nat.
Proof.
  unfold render_text.
  rewrite length_app, length_newline_text by done.
  rewrite (length_concat_blocks _ _ render_rows), length_map.
  unfold range. by rewrite length_seq.
Qed.

Lemma lookup_render_text (i j : nat) :
  (i < Z.to_nat (size b))%nat -> (j < Z.to_nat (size b))%nat ->
  render_text b !! (2 * Z.to_nat (size b) + 3 +
                    i * (4 * Z.to_nat (size b) + 4) + 1 + 2 * j)%nat =
    cell_text (grid_cell (grid b) i j) !! 0%nat.
Proof.
  intros Hi Hj. unfold render_text.
  rewrite lookup_app_r by (rewrite length_newline_text by done; lia).
  rewrite length_newline_text by done.
  replace (2 * Z.to_nat (size b) + 3 + i * (4 * Z.to_nat (size b) + 4) + 1 +
           2 * j - (2 * Z.to_nat (size b) + 3))%nat
    with (i * (4 * Z.to_nat (size b) + 4) + (1 + 2 * j))%nat by lia.
  rewrite (lookup_concat_blocks _ _ _ _ render_rows) by lia.
  unfold range at 1. rewrite lookup_map_seq by done. simpl.
  unfold row_text.
  replace (j + (j + 0))%nat with (j * 2 + 0)%nat by lia.
  rewrite lookup_app_l
    by (rewrite (length_concat_blocks _ 2 (row_blocks i Hi)), length_map;
        unfold range; rewrite length_seq; lia).
  rewrite (lookup_concat_blocks _ _ _ _ (row_blocks i Hi)) by lia.
  unfold range. rewrite lookup_map_seq by done. simpl.
  rewrite lookup_app_l by (rewrite cell_text_one by done; lia). done.
Qed.

End RenderFacts.

(** X10. On a [size] by [size] grid whose cells each print as one
    character (empty, or a value of 0..9), [__str__] succeeds and its text
    has a fixed layout: [size + 1] separator lines of [2 * size + 1]
    underscores around [size] row lines, [2 * size + 3 + size * (4 * size
    + 4)] characters in all, the character of the cell [(i, j)] standing
    at offset [2 * size + 3 + i * (4 * size + 4) + 1 + 2 * j]; an empty
    cell prints as a blank, 0 as [0] and 1 as [1]. *)
Theorem Binairo_str_layout (b : Binairo) :
  0 <= size b ->
  square_grid (size b) (grid b) ->
  Forall (Forall (fun c => length (cell_text c) = 1%nat)) (grid b) ->
  exists out,
    Binairo_str b = Ok out /\
    length out = (2 * Z.to_nat (size b) + 3 +
                  Z.to_nat (size b) * (4 * Z.to_nat (size b) + 4))%nat /\
    (forall i j c,
        (i < Z.to_nat (size b))%nat -> (j < Z.to_nat (size b))%nat ->
        grid_get (grid b) i j = Ok c ->
        out !! (2 * Z.to_nat (size b) + 3 +
                i * (4 * Z.to_nat (size b) + 4) + 1 + 2 * j)%nat =
          cell_text c !! 0%nat) /\
    cell_text None = [" "%char] /\
    cell_text (Some 0) = ["0"%char] /\
    cell_text (Some 1) = ["1"%char].
Proof.
  intros Hsize Hsq Hone. exists (render_text b). split_and!.
  - by apply Binairo_str_Ok.
  - by apply length_render_text.
  - intros i j c Hi Hj Hc.
    rewrite <- (grid_get_grid_cell _ _ _ _ Hc).
    by apply lookup_render_text.
  - reflexivity.
  - reflexivity.
  - reflexivity.
Qed.

Lemma Binairo_str_layout_witness :
  exists out,
    Binairo_str (mkBinairo 2 [[Some 0; None]; [None; Some 1]] [] None) =
      Ok out /\
    length out = (2 * Z.to_nat 2 + 3 + Z.to_nat 2 * (4 * Z.to_nat 2 + 4))%nat /\
    (forall i j c,
        (i < Z.to_nat 2)%nat -> (j < Z.to_nat 2)%nat ->
        grid_get [[Some 0; None]; [None; Some 1]] i j = Ok c ->
        out !! (2 * Z.to_nat 2 + 3 + i * (4 * Z.to_nat 2 + 4) + 1 + 2 * j)%nat =
          cell_text c !! 0%nat) /\
    cell_text None = [" "%char] /\
    cell_text (Some 0) = ["0"%char] /\
    cell_text (Some 1) = ["1"%char].
Proof.
  apply (Binairo_str_layout
           (mkBinairo 2 [[Some 0; None]; [None; Some 1]] [] None)).
  - simpl. lia.
  - split; [reflexivity | repeat constructor].
  - repeat constructor.
Defined.

(** X11. [__str__] reads every cell of [range(size)] by [range(size)]:
    when the grid lacks one of them (a grid supplied with fewer rows or
    shorter rows than [size]), it raises [IndexError], and it raises
    nothing else. *)
Theorem Binairo_str_missing_cell (b : Binairo) (i j : nat) :
  (i < Z.to_nat (size b))%nat -> (j < Z.to_nat (size b))%nat ->
  grid_get (grid b) i j = Raise IndexError ->
  Binairo_str b = Raise IndexError.
Proof.
  intros Hi%elem_of_range Hj%elem_of_range Hmiss.
  destruct (Binairo_str b) as [out|e] eqn:Hstr; unfold Binairo_str in Hstr.
  - exfalso.
    destruct (for_each_Ok_body _ _ _ _ i Hstr Hi) as (st1 & st2 & Hrow).
    apply bind_Ok in Hrow as (st3 & Hinner & _).
    destruct (for_each_Ok_body _ _ _ _ j Hinner Hj) as (st4 & st5 & Hcell).
    apply bind_Ok in Hcell as (c & Hc & _). congruence.
  - f_equal.
    apply for_each_Raise_body in Hstr as (i' & st1 & _ & Hrow).
    apply bind_Raise in Hrow as [Hinner|(st2 & _ & [=])].
    apply for_each_Raise_body in Hinner as (j' & st3 & _ & Hcell).
    apply bind_Raise in Hcell as [Hc|(c & _ & [=])].
    by apply grid_get_Raise in Hc.
Qed.

Lemma Binairo_str_missing_cell_witness :
  Binairo_str (mkBinairo 2 [[Some 0; Some 1]] [] None) = Raise IndexError.
Proof.
  apply (Binairo_str_missing_cell
           (mkBinairo 2 [[Some 0; Some 1]] [] None) 1 0).
  - simpl. lia.
  - simpl. lia.
  - reflexivity.
Defined.

Lemma model_encodes_rules_witness :
  exists var_grid m,
    build_model 2 (mkBinairo 2 [[Some 0; None]; [None; Some 0]] [] None) =
      Ok (var_grid, m) /\
    forall a, feasible m a = true <->
              solves 2 [[Some 0; None]; [None; Some 0]] a.
Proof.
  apply (model_encodes_rules 2
           (mkBinairo 2 [[Some 0; None]; [None; Some 0]] [] None)).
  split; [reflexivity | repeat constructor].
Defined.

(** ** The C3 check on boards of any shape *)

Lemma foldl_min_le (k : nat) (l : list nat) :
  (foldl Nat.min k l <= k)%nat /\
  forall x, x ∈ l -> (foldl Nat.min k l <= x)%nat.
Proof.
  revert k. induction l as [|y l IH]; intros k; simpl.
  - split; [lia | intros x Hx; by inversion Hx].
  - destruct (IH (Nat.min k y)) as [Hk Hl]. split; [lia|].
    intros x [->|Hx]%elem_of_cons; [lia | by apply Hl].
Qed.

Lemma length_zip_star_le (board : list (list Z)) (row : list Z) :
  row ∈ board -> (length (zip_star board) <= length row)%nat.
Proof.
  intros Hin. destruct board as [|r rs]; [by inversion Hin|].
  unfold zip_star. rewrite length_map, length_seq.
  destruct (foldl_min_le (length r) (map length rs)) as [Hr Hrs].
  apply elem_of_cons in Hin as [->|Hin]; [done|].
  apply Hrs. change (map length rs) with (length <$> rs).
  by apply list_elem_of_fmap_2.
Qed.

(** X12. [_is_valid_c3] accepts no board with a repeated row, whatever its
    shape; and since it compares the number of distinct columns with the
    number of rows, it rejects every board that has more rows than one of
    its rows has cells. *)
Theorem is_valid_c3_rejects :
  (forall board, _is_valid_c3 board = true -> NoDup board) /\
  (forall board row,
      row ∈ board -> (length row < length board)%nat ->
      _is_valid_c3 board = false).
Proof.
  split.
  - intros board [Hrows _]%andb_true_iff.
    by apply bool_decide_eq_true, len_set_NoDup in Hrows.
  - intros board row Hin Hlt. unfold _is_valid_c3.
    apply andb_false_iff. right. apply bool_decide_eq_false.
    pose proof (length_remove_dups_le (zip_star board)) as Hle.
    pose proof (length_zip_star_le board row Hin) as Hz.
    unfold len_set. lia.
Qed.

(** ** The last removal is kept *)

Section LastRemoval.

Context {Rng : Type}.
Variable next_draw : Rng -> Z * Rng.
Variable search : CpModel -> list (list Z).

Lemma removal_loop_keeps_last (fuel : nat) (n : Z) :
  forall (b0 : Binairo) (sols0 : list (list (list Z))) (s0 : Rng)
         (b : Binairo) (sols : list (list (list Z))) (s : Rng),
    (sols0 = [] \/
     exists i j c, last_removed b0 = Some (i, j, c) /\
                   grid_get (grid b0) i j = Ok None) ->
    removal_loop next_draw search fuel n b0 sols0 s0 = Some (Ok (b, sols, s)) ->
    exists i j c, last_removed b = Some (i, j, c) /\
                  grid_get (grid b) i j = Ok None.
Proof.
  induction fuel as [|fuel IH]; intros b0 sols0 s0 b sols s Hpre Hloop.
  - simpl in Hloop. case_bool_decide as Hlen; [done|].
    injection Hloop as <- <- <-.
    destruct Hpre as [->|Hpre]; [done | exact Hpre].
  - simpl in Hloop. case_bool_decide as Hlen.
    + destruct (remove_random_square next_draw b0 s0) as [[b1 s1]|e] eqn:Hrem;
        [|done].
      destruct (_get_valid_solutions search n b1) as [sols1|e]; [|done].
      case_bool_decide as Hmany.
      * destruct (cancel_last_remove b1) as [b2|e]; [|done].
        apply (IH b2 sols0 s1 b sols s); [|done]. left.
        by apply length_zero_iff_nil.
      * apply (IH b1 sols1 s1 b sols s); [|done]. right.
        apply remove_random_square_inv in Hrem
          as (k & i & j & row & c & Hk & Hrow & Hcell & ->).
        exists i, j, c. split; [done|]. simpl.
        apply grid_get_set_same; [done|]. by eapply lookup_lt_Some.
    + injection Hloop as <- <- <-.
      destruct Hpre as [->|Hpre]; [done | exact Hpre].
Qed.

(** X13. For every size of 2 or more and a solver that returns only
    feasible assignments, [generate_binairo] never returns the start grid
    itself: the removal recorded in [last_removed] of the returned puzzle
    was kept, its cell is empty in the returned grid and its square is not
    listed in [filled_squares]. *)
Theorem generated_puzzle_keeps_last_removal (fuel : nat) (n : Z) (s : Rng)
    (b : Binairo) (sol : list (list Z)) :
  2 <= n -> sound_solver search ->
  generate_binairo next_draw search fuel n s = Some (Ok (b, sol)) ->
  exists i j c,
    last_removed b = Some (i, j, c) /\
    grid_get (grid b) i j = Ok None /\
    (i, j) ∉ filled_squares b.
Proof.
  intros Hn Hsound Hgen.
  destruct (generate_loop_invariant next_draw search fuel n s)
    as (b0 & s0 & Hinit & Hd & Hcases).
  unfold generate_binairo in Hgen.
  destruct Hcases as [Hl | [Hl | (b' & sols & s' & Hl & Hinv & Hne)]];
    rewrite Hl in Hgen; try done.
  destruct sols as [|sol' sols]; [done|]. simpl in Hgen.
  injection Hgen as <- <-.
  assert (exists i j c, last_removed b' = Some (i, j, c) /\
                        grid_get (grid b') i j = Ok None)
    as (i & j & c & Hlast & Hnone).
  { unfold generate_loop in Hl. rewrite Hinit in Hl.
    assert (_get_valid_solutions search n b0 = Ok []) as Hstart.
    { rewrite get_valid_solutions_Ok by (by apply dense_square_grid).
      destruct (Hsound (model_of n (grid b0))) as [_ Hfeas].
      destruct (search (model_of n (grid b0))) as [|a found] eqn:Hs; [done|].
      exfalso. unfold Binairo_init in Hinit.
      pose proof (random_grid_unsolvable next_draw n s a Hn) as Hno.
      destruct (_generate_random_grid next_draw n s) as [g s2].
      injection Hinit as <- _. simpl in *.
      apply Hno, feasible_model_of, Hfeas. by left. }
    rewrite Hstart in Hl.
    apply (removal_loop_keeps_last _ _ _ _ _ _ _ _ (or_introl eq_refl) Hl). }
  exists i, j, c. split_and!; [done | done |].
  destruct Hinv as (_ & _ & [_ Hiff]).
  intros [v Hv]%Hiff. congruence.
Qed.

End LastRemoval.

Lemma generated_puzzle_keeps_last_removal_witness :
  exists i j c,
    Some (1%nat, 0%nat, Some 0) = Some (i, j, c) /\
    grid_get [[Some 0; None]; [None; Some 0]] i j = Ok None /\
    (i, j) ∉ [(0, 0); (1, 1)]%nat.
Proof.
  apply (generated_puzzle_keeps_last_removal scripted brute_search 2 2
           [0; 0; 1; 1]
           (mkBinairo 2 [[Some 0; None]; [None; Some 0]]
              [(0, 0); (1, 1)]%nat (Some (1%nat, 0%nat, Some 0)))
           [[0; 1]; [1; 1]]).
  - lia.
  - exact brute_search_sound.
  - vm_compute. reflexivity.
Defined.

(** ** The script *)

Lemma cell_text_binary (c : Cell) :
  c = None \/ c = Some 0 \/ c = Some 1 -> length (cell_text c) = 1%nat.
Proof. by intros [-> | [-> | ->]]. Qed.

Lemma nth_Forall {A : Type} (P : A -> Prop) (l : list A) (k : nat) (d : A) :
  Forall P l -> P d -> P (nth k l d).
Proof.
  intros Hl Hd. destruct (nth_in_or_default k l d) as [Hin| ->]; [|done].
  rewrite Forall_forall in Hl. by apply Hl, list_elem_of_In.
Qed.

Lemma clean_solution_values (n : Z) (var_grid : VarGrid) (a : list Z) :
  Forall (fun x => 0 <= x <= 1) a ->
  Forall (Forall (fun x => 0 <= x <= 1))
    (clean_solution n (raw_solution var_grid a)).
Proof.
  intros Ha. unfold clean_solution.
  apply Forall_forall. intros row Hrow%list_elem_of_In.
  apply in_map_iff in Hrow as (j & <- & _).
  apply Forall_forall. intros x Hx%list_elem_of_In.
  apply in_map_iff in Hx as (i & <- & _).
  apply nth_Forall; [|lia].
  unfold raw_solution. apply Forall_forall. intros y Hy%list_elem_of_In.
  apply in_map_iff in Hy as (v & <- & _).
  unfold Value. apply nth_Forall; [done | lia].
Qed.

Lemma blanked_constant_rows (n : Z) (g0 g : Grid) :
  Forall (fun row => exists v, (v = 0 \/ v = 1) /\
                               row = py_repeat (Some v) n) g0 ->
  blanked g0 g ->
  Forall (Forall (fun c => length (cell_text c) = 1%nat)) g.
Proof.
  intros Hconst Hblank. rewrite Forall_forall in Hconst.
  apply Forall_forall. intros row (i & Hrow)%list_elem_of_lookup_1.
  destruct (Forall2_lookup_r _ _ _ _ _ Hblank Hrow) as (row0 & Hrow0 & Hrows).
  destruct (Hconst row0) as (w & Hw & ->); [by eapply list_elem_of_lookup_2|].
  apply Forall_forall. intros c (j & Hc)%list_elem_of_lookup_1.
  destruct (Forall2_lookup_r _ _ _ _ _ Hrows Hc) as (c0 & Hc0 & Hcc).
  apply list_elem_of_lookup_2, elem_of_replicate_inv in Hc0 as ->.
  apply cell_text_binary. destruct Hcc as [-> | ->]; [by left|].
  right. destruct Hw as [-> | ->]; [by left | by right].
Qed.

Lemma solution_grid (n : Z) (board : list (list Z)) :
  square_board n board ->
  Forall (Forall (fun x => 0 <= x <= 1)) board ->
  square_grid n (map (map Some) board) /\
  Forall (Forall (fun c => length (cell_text c) = 1%nat))
    (map (map Some) board).
Proof.
  intros [Hlen Hrows] Hvals. split; [split|].
  - by rewrite length_map.
  - apply Forall_forall. intros row Hrow%list_elem_of_In.
    apply in_map_iff in Hrow as (r & <- & Hr%list_elem_of_In).
    rewrite length_map. rewrite Forall_forall in Hrows. by apply Hrows.
  - apply Forall_forall. intros row Hrow%list_elem_of_In.
    apply in_map_iff in Hrow as (r & <- & Hr%list_elem_of_In).
    rewrite Forall_forall in Hvals. specialize (Hvals r Hr).
    rewrite Forall_forall in Hvals.
    apply Forall_forall. intros c Hc%list_elem_of_In.
    apply in_map_iff in Hc as (x & <- & Hx%list_elem_of_In).
    apply cell_text_binary. specialize (Hvals x Hx).
    assert (x = 0 \/ x = 1) as [-> | ->] by lia; auto.
Qed.

Lemma Res_bind_Ok {A B : Type} (x : A) (f : A -> Res B) : Ok x ≫= f = f x.
Proof. reflexivity. Qed.

Section MainFacts.

Context {Rng : Type}.
Variable next_draw : Rng -> Z * Rng.
Variable search : CpModel -> list (list Z).

(** X14. With a solver that returns feasible assignments, none twice, the
    script at the end of the module raises nothing but the
    [AssertionError] of the removal: when the generation returns, both
    texts are built without error, the puzzle and then the solution, each
    a 6 by 6 layout of 183 characters, and the script prints the two
    titles and the two texts, each followed by a line feed. *)
Theorem main_prints_two_grids (fuel : nat) (s : Rng) :
  sound_solver search ->
  main next_draw search fuel s = None \/
  main next_draw search fuel s = Some (Raise AssertionError) \/
  exists b sol text1 text2,
    generate_binairo next_draw search fuel 6 s = Some (Ok (b, sol)) /\
    Binairo_str b = Ok text1 /\
    Binairo_str (mkBinairo 6 (map (map Some) sol) (all_squares 6) None) =
      Ok text2 /\
    length text1 = 183%nat /\ length text2 = 183%nat /\
    main next_draw search fuel s =
      Some (Ok (String.list_ascii_of_string "Generated binairo:" ++
                ["010"%char] ++ text1 ++ ["010"%char] ++
                String.list_ascii_of_string "Solution:" ++
                ["010"%char] ++ text2 ++ ["010"%char])).
Proof.
  intros Hsound. unfold main, generate_binairo.
  destruct (generate_loop_invariant next_draw search fuel 6 s)
    as (b0 & s0 & Hinit & Hd & [Hl | [Hl | (b & sols & s' & Hl & Hinv & Hne)]]);
    rewrite Hl; [by left | right; by left |].
  right; right.
  destruct (generate_loop_exit next_draw search _ _ _ _ _ _ Hsound Hl)
    as (sol & -> & Hvalid).
  destruct Hinv as (Hsize & Hblank & Hexact).
  assert (square_grid 6 (grid b)) as Hsq
    by (apply (blanked_square_grid 6 (grid b0));
        [by apply dense_square_grid | done]).
  assert (Forall (Forall (fun c => length (cell_text c) = 1%nat)) (grid b))
    as Hone.
  { apply (blanked_constant_rows 6 (grid b0)); [|done].
    unfold Binairo_init, _generate_random_grid in Hinit.
    pose proof (random_rows_constant next_draw 6 (range 6) s) as Hconst.
    destruct (random_rows next_draw 6 (range 6) s) as [g s2].
    by injection Hinit as <- _. }
  assert (square_board 6 sol /\ Forall (Forall (fun x => 0 <= x <= 1)) sol)
    as [Hsb Hvals].
  { rewrite get_valid_solutions_Ok in Hvalid by done.
    injection Hvalid as Hfilter.
    assert (In sol (List.filter _is_valid_c3
              (map (fun a => clean_solution 6 (raw_solution (var_grid_of 6) a))
                 (take 2 (search (model_of 6 (grid b)))))))
      as Hin by (rewrite Hfilter; by left).
    apply filter_In in Hin as [Hin _].
    apply in_map_iff in Hin as (a & <- & Ha%list_elem_of_In).
    split; [apply clean_solution_square|].
    apply clean_solution_values.
    destruct (Hsound (model_of 6 (grid b))) as [_ Hfeas].
    assert (a ∈ search (model_of 6 (grid b))) as Hsearch.
    { apply elem_of_take in Ha as (k & Hk & _).
      by eapply list_elem_of_lookup_2. }
    apply Hfeas, feasible_model_of in Hsearch. apply Hsearch. }
  destruct (solution_grid 6 sol Hsb Hvals) as [Hsq2 Hone2].
  set (bs := mkBinairo 6 (map (map Some) sol) (all_squares 6) None).
  exists b, sol, (render_text b), (render_text bs).
  assert (Binairo_str b = Ok (render_text b)) as Hstr1
    by (apply Binairo_str_Ok; by rewrite Hsize).
  assert (Binairo_str bs = Ok (render_text bs)) as Hstr2
    by (by apply Binairo_str_Ok).
  split_and!.
  - reflexivity.
  - exact Hstr1.
  - exact Hstr2.
  - rewrite length_render_text; [by rewrite Hsize | lia | by rewrite Hsize | done].
  - by rewrite length_render_text; [| simpl; lia | |].
  - f_equal. cbv zeta. rewrite Hstr1, Res_bind_Ok.
    unfold Binairo_init. rewrite Res_bind_Ok.
    fold (all_squares 6). fold bs. rewrite Hstr2, Res_bind_Ok.
    unfold py_print. rewrite app_nil_l, <- !app_assoc. reflexivity.
Qed.

End MainFacts.

(** ** Runs of size 4: what the filter judges *)

(** An equation between closed terms, checked by evaluating its left side
    once, when the proof is closed. *)
Ltac by_evaluation :=
  lazymatch goal with
  | |- _ = ?r => vm_cast_no_check (@eq_refl _ r)
  end.


(** C1 (defect of the code). With size 4, the draws 7, 1, 9, 1 for the
    rows (a start grid of ones) and the draws 7, 0, 12, 11, 15, 15, 15,
    15, 12, 9 for the removals, [generate_binairo] returns the grid
    [[_, 1, 1, _], [_, 1, _, _], [_, _, 1, _], [1, _, _, 1]] as a puzzle
    with one solution. That grid has two: exactly two assignments meet
    the rules its model encodes, they stand for the boards
    0110/0101/1010/1001 and 0110/1100/0011/1001, and both boards are
    balanced, carry the values of the grid and have pairwise distinct rows
    and pairwise distinct columns. The enumeration of the code counts one,
    because it filters the boards that [_solve] rebuilds with the index
    [i + j]: the board rebuilt from the second assignment has two equal
    rows and is dropped. *)
Theorem returned_puzzle_size4_two_solutions :
  generate_binairo scripted brute_search 10 4
    [7; 1; 9; 1; 7; 0; 12; 11; 15; 15; 15; 15; 12; 9] =
    Some (Ok (mkBinairo 4
                [[None; Some 1; Some 1; None]; [None; Some 1; None; None];
                 [None; None; Some 1; None]; [Some 1; None; None; Some 1]]
                [(0, 1); (0, 2); (1, 1); (2, 2); (3, 0); (3, 3)]%nat
                (Some (0%nat, 3%nat, Some 1)),
              [[0; 1; 1; 0]; [1; 1; 0; 0]; [1; 0; 0; 1]; [0; 0; 1; 0]])) /\
  (forall a,
      solves 4 [[None; Some 1; Some 1; None]; [None; Some 1; None; None];
                [None; None; Some 1; None]; [Some 1; None; None; Some 1]] a <->
      a = [0; 1; 1; 0; 0; 1; 0; 1; 1; 0; 1; 0; 1; 0; 0; 1] \/
      a = [0; 1; 1; 0; 1; 1; 0; 0; 0; 0; 1; 1; 1; 0; 0; 1]) /\
  board_of 4 [0; 1; 1; 0; 0; 1; 0; 1; 1; 0; 1; 0; 1; 0; 0; 1] =
    [[0; 1; 1; 0]; [0; 1; 0; 1]; [1; 0; 1; 0]; [1; 0; 0; 1]] /\
  board_of 4 [0; 1; 1; 0; 1; 1; 0; 0; 0; 0; 1; 1; 1; 0; 0; 1] =
    [[0; 1; 1; 0]; [1; 1; 0; 0]; [0; 0; 1; 1]; [1; 0; 0; 1]] /\
  _is_valid_c3 [[0; 1; 1; 0]; [0; 1; 0; 1]; [1; 0; 1; 0]; [1; 0; 0; 1]] = true /\
  _is_valid_c3 [[0; 1; 1; 0]; [1; 1; 0; 0]; [0; 0; 1; 1]; [1; 0; 0; 1]] = true /\
  balanced 4 [[0; 1; 1; 0]; [0; 1; 0; 1]; [1; 0; 1; 0]; [1; 0; 0; 1]] = true /\
  balanced 4 [[0; 1; 1; 0]; [1; 1; 0; 0]; [0; 0; 1; 1]; [1; 0; 0; 1]] = true /\
  agrees [[None; Some 1; Some 1; None]; [None; Some 1; None; None];
          [None; None; Some 1; None]; [Some 1; None; None; Some 1]]
    [[0; 1; 1; 0]; [0; 1; 0; 1]; [1; 0; 1; 0]; [1; 0; 0; 1]] = true /\
  agrees [[None; Some 1; Some 1; None]; [None; Some 1; None; None];
          [None; None; Some 1; None]; [Some 1; None; None; Some 1]]
    [[0; 1; 1; 0]; [1; 1; 0; 0]; [0; 0; 1; 1]; [1; 0; 0; 1]] = true /\
  clean_solution 4
    (raw_solution (var_grid_of 4)
       [0; 1; 1; 0; 1; 1; 0; 0; 0; 0; 1; 1; 1; 0; 0; 1]) =
    [[0; 1; 1; 0]; [1; 1; 0; 1]; [1; 0; 1; 1]; [0; 1; 1; 0]] /\
  _is_valid_c3 [[0; 1; 1; 0]; [1; 1; 0; 1]; [1; 0; 1; 1]; [0; 1; 1; 0]] =
    false.
Proof.
  split; [by_evaluation|].
  split; [|split_and!; by_evaluation].
  assert (brute_search
            (model_of 4
               [[None; Some 1; Some 1; None]; [None; Some 1; None; None];
                [None; None; Some 1; None]; [Some 1; None; None; Some 1]]) =
          [[0; 1; 1; 0; 0; 1; 0; 1; 1; 0; 1; 0; 1; 0; 0; 1];
           [0; 1; 1; 0; 1; 1; 0; 0; 0; 0; 1; 1; 1; 0; 0; 1]]) as Hall
    by by_evaluation.
  intros a. rewrite <- feasible_model_of. split.
  - intros Hin%brute_search_complete. rewrite Hall in Hin.
    apply elem_of_cons in Hin as [-> | Hin]; [by left|].
    apply elem_of_cons in Hin as [-> | Hin]; [by right|].
    by apply elem_of_nil in Hin.
  - intros [-> | ->]; vm_compute; reflexivity.
Qed.

(** C4 (defect of the code). The filter does not judge the candidates
    the solver found but the boards that [_solve] rebuilds from them with
    the index [i + j], so a candidate with equal rows can be kept and one
    with distinct rows and columns can be discarded. With size 4, the
    draws 12, 2, 2, 10 for the rows (a start grid of zeros) and 14, 3, 8,
    6, 15, 11, 8, 5 for the removals, [generate_binairo] returns the grid
    [[_, 0, 0, _], [_, 0, 0, _], [0, _, _, 0], [0, _, _, 0]]: the solver
    finds one candidate on it, the board 1001/1001/0110/0110 whose first
    two rows are equal (and whose last two are), and the enumeration keeps
    it, as the rebuilt board 1001/0011/0110/1100. On the grid
    [[_, 1, 1, _], [_, 1, _, _], [_, _, 1, _], [1, _, _, 1]] the solver
    finds two candidates, the second being the board 0110/1100/0011/1001
    with pairwise distinct rows and columns, and the enumeration discards
    it. *)
Theorem filter_judges_rebuilt_boards :
  generate_binairo scripted brute_search 10 4
    [12; 2; 2; 10; 14; 3; 8; 6; 15; 11; 8; 5] =
    Some (Ok (mkBinairo 4
                [[None; Some 0; Some 0; None]; [None; Some 0; Some 0; None];
                 [Some 0; None; None; Some 0]; [Some 0; None; None; Some 0]]
                [(0, 1); (0, 2); (1, 1); (1, 2);
                 (2, 0); (2, 3); (3, 0); (3, 3)]%nat
                (Some (2%nat, 2%nat, Some 0)),
              [[1; 0; 0; 1]; [0; 0; 1; 1]; [0; 1; 1; 0]; [1; 1; 0; 0]])) /\
  brute_search
    (model_of 4
       [[None; Some 0; Some 0; None]; [None; Some 0; Some 0; None];
        [Some 0; None; None; Some 0]; [Some 0; None; None; Some 0]]) =
    [[1; 0; 0; 1; 1; 0; 0; 1; 0; 1; 1; 0; 0; 1; 1; 0]] /\
  board_of 4 [1; 0; 0; 1; 1; 0; 0; 1; 0; 1; 1; 0; 0; 1; 1; 0] =
    [[1; 0; 0; 1]; [1; 0; 0; 1]; [0; 1; 1; 0]; [0; 1; 1; 0]] /\
  _is_valid_c3 [[1; 0; 0; 1]; [1; 0; 0; 1]; [0; 1; 1; 0]; [0; 1; 1; 0]] =
    false /\
  _get_valid_solutions brute_search 4
    (mkBinairo 4
       [[None; Some 0; Some 0; None]; [None; Some 0; Some 0; None];
        [Some 0; None; None; Some 0]; [Some 0; None; None; Some 0]]
       [(0, 1); (0, 2); (1, 1); (1, 2); (2, 0); (2, 3); (3, 0); (3, 3)]%nat
       (Some (2%nat, 2%nat, Some 0))) =
    Ok [[[1; 0; 0; 1]; [0; 0; 1; 1]; [0; 1; 1; 0]; [1; 1; 0; 0]]] /\
  brute_search
    (model_of 4
       [[None; Some 1; Some 1; None]; [None; Some 1; None; None];
        [None; None; Some 1; None]; [Some 1; None; None; Some 1]]) =
    [[0; 1; 1; 0; 0; 1; 0; 1; 1; 0; 1; 0; 1; 0; 0; 1];
     [0; 1; 1; 0; 1; 1; 0; 0; 0; 0; 1; 1; 1; 0; 0; 1]] /\
  board_of 4 [0; 1; 1; 0; 1; 1; 0; 0; 0; 0; 1; 1; 1; 0; 0; 1] =
    [[0; 1; 1; 0]; [1; 1; 0; 0]; [0; 0; 1; 1]; [1; 0; 0; 1]] /\
  _is_valid_c3 [[0; 1; 1; 0]; [1; 1; 0; 0]; [0; 0; 1; 1]; [1; 0; 0; 1]] =
    true /\
  _get_valid_solutions brute_search 4
    (mkBinairo 4
       [[None; Some 1; Some 1; None]; [None; Some 1; None; None];
        [None; None; Some 1; None]; [Some 1; None; None; Some 1]]
       [(0, 1); (0, 2); (1, 1); (2, 2); (3, 0); (3, 3)]%nat
       (Some (0%nat, 3%nat, Some 1))) =
    Ok [[[0; 1; 1; 0]; [1; 1; 0; 0]; [1; 0; 0; 1]; [0; 0; 1; 0]]].
Proof. split_and!; by_evaluation. Qed.

(** ** A run of the script that prints *)

Lemma pick_solver_sound (a : list Z) : sound_solver (pick_solver a).
Proof.
  intros m. unfold pick_solver.
  destruct (feasible m a) eqn:Hf.
  - split; [apply NoDup_singleton|].
    intros x Hx%list_elem_of_singleton. by subst x.
  - split; [apply NoDup_nil_2|]. intros x Hx. by apply elem_of_nil in Hx.
Qed.

(** The run: the start grid is all zeros (six draws of 0), and eighteen
    removals empty, row by row, the cells where the board
    101010/001101/110100/001011/110010/010101 holds a one; the solver
    knows that board. *)
Lemma main_prints_two_grids_witness :
  exists b sol text1 text2,
    generate_binairo scripted
      (pick_solver [1; 0; 1; 0; 1; 0; 0; 0; 1; 1; 0; 1; 1; 1; 0; 1; 0; 0;
                    0; 0; 1; 0; 1; 1; 1; 1; 0; 0; 1; 0; 0; 1; 0; 1; 0; 1])
      20 6
      [0; 0; 0; 0; 0; 0; 0; 1; 2; 5; 5; 6; 6; 6; 7; 11; 12; 12; 12; 12;
       14; 16; 17; 18] = Some (Ok (b, sol)) /\
    Binairo_str b = Ok text1 /\
    Binairo_str (mkBinairo 6 (map (map Some) sol) (all_squares 6) None) =
      Ok text2 /\
    length text1 = 183%nat /\ length text2 = 183%nat /\
    main scripted
      (pick_solver [1; 0; 1; 0; 1; 0; 0; 0; 1; 1; 0; 1; 1; 1; 0; 1; 0; 0;
                    0; 0; 1; 0; 1; 1; 1; 1; 0; 0; 1; 0; 0; 1; 0; 1; 0; 1])
      20
      [0; 0; 0; 0; 0; 0; 0; 1; 2; 5; 5; 6; 6; 6; 7; 11; 12; 12; 12; 12;
       14; 16; 17; 18] =
      Some (Ok (String.list_ascii_of_string "Generated binairo:" ++
                ["010"%char] ++ text1 ++ ["010"%char] ++
                String.list_ascii_of_string "Solution:" ++
                ["010"%char] ++ text2 ++ ["010"%char])).
Proof.
  destruct (main_prints_two_grids scripted
              (pick_solver [1; 0; 1; 0; 1; 0; 0; 0; 1; 1; 0; 1; 1; 1; 0; 1;
                            0; 0; 0; 0; 1; 0; 1; 1; 1; 1; 0; 0; 1; 0; 0; 1;
                            0; 1; 0; 1])
              20
              [0; 0; 0; 0; 0; 0; 0; 1; 2; 5; 5; 6; 6; 6; 7; 11; 12; 12; 12;
               12; 14; 16; 17; 18]
              (pick_solver_sound _)) as [H | [H | H]].
  - vm_compute in H. discriminate H.
  - vm_compute in H. discriminate H.
  - exact H.
Defined.
